(** * The entry point of the LLM security-experiment runner (main.py)

    A shallow embedding of [main] and of the collaborators it drives.

    [main] is effectful Python: it logs, builds and runs an experiment,
    calls three metric routines and hands one record to the storage layer.
    It is embedded in a small state-and-exception monad.  The state holds
    the trace of every collaborator call [main] makes, in program order,
    together with the state of the outside world that the experiment
    builder and the latency probe act on.

    Python floats are IEEE 754 binary64 numbers.  A finite one is
    represented by its exact rational value; minus zero, the infinities
    and NaN are values of their own.  Arithmetic rounds to the nearest
    double, ties to the even mantissa, so that [a - b], [k / n] on integers
    and [round(x, 2)] give the double that Python gives.

    [main] is written against three collaborators that hand back numbers:
    the two metric routines and the latency probe.  It takes whatever they
    return, so they are parameters of [main] here too, free to return a
    float, an int, a string or [None], and the metric routines free to
    raise; [a - b] and [round(x, 2)] then behave as Python has them on
    such objects.  The claims of the spec are about the collaborators as
    the spec describes them: the two metric routines modelled from it and a
    probe that returns floats. *)

From Stdlib Require Import ZArith QArith Qcanon Qround Qpower Qabs String Lqa.
From stdpp Require Import gmap strings list fin_maps.

Local Open Scope string_scope.

(** ** Python data *)

(** The values an example carries under its keys: labels are categorical
    (integers or strings in the datasets the runner names), texts are
    strings, and [None] may stand in for either. On these, Python's [==]
    is structural equality. *)
Inductive value : Type :=
| VNone
| VInt (z : Z)
| VStr (s : string).

#[global] Instance value_eq_dec : EqDecision value.
Proof. solve_decision. Defined.

(** One example of [adversarial_data] is a dict from key to value. *)
Abbreviation example := (gmap string value).

(** The values stored in the dict that [run_experiment] returns. *)
Inductive rvalue : Type :=
| RNone
| RStr (s : string)
| RList (l : list example).

#[global] Instance rvalue_eq_dec : EqDecision rvalue.
Proof. solve_decision. Defined.

(** ** Floats *)

Definition Qc_of_nat (n : nat) : Qc := Q2Qc (inject_Z (Z.of_nat n)).

(** Round to the nearest integer, ties to the even one. *)
Definition round_half_even (q : Q) : Z :=
  let f := Qfloor q in
  match Qcompare (q - inject_Z f) (1 # 2) with
  | Lt => f
  | Gt => (f + 1)%Z
  | Eq => if Z.even f then f else (f + 1)%Z
  end.

(** A Python float. [Finite q] is the finite double of value [q], where
    [Finite 0] is [0.0]; [NegZero] is [-0.0]. *)
Inductive double : Type :=
| Finite (q : Qc)
| NegZero
| Infinity (negative : bool)
| NaN.

#[global] Instance double_eq_dec : EqDecision double.
Proof. solve_decision. Defined.

(** [2 ** e] *)
Definition pow2 (e : Z) : Q :=
  match e with
  | Z0 => 1
  | Zpos p => inject_Z (Zpos (2 ^ p))
  | Zneg p => 1 # (2 ^ p)
  end.

(** The binary exponent of a positive rational: the [c] with
    [2 ** c <= a < 2 ** (c + 1)]. *)
Definition floor_log2 (a : Q) : Z :=
  let c := (Z.log2 (Qnum a) - Z.log2 (Zpos (Qden a)))%Z in
  if Qle_bool (pow2 c) a then c else (c - 1)%Z.

(** A positive rational rounded to 53 significant bits, or to a multiple
    of [2 ** -1074] below the normal range; [None] from [2 ** 1024] on. *)
Definition round_magnitude (a : Q) : option Q :=
  let e := Z.max (floor_log2 a - 52) (-1074) in
  let m := round_half_even (a / pow2 e) in
  let r := Qred (inject_Z m * pow2 e) in
  if Qle_bool (pow2 1024) r then None else Some r.

(** The double nearest to a rational, ties to even. *)
Definition round_to_double (q : Q) : double :=
  match Qcompare q 0 with
  | Eq => Finite 0
  | Gt =>
      match round_magnitude q with
      | Some r => Finite (Q2Qc r)
      | None => Infinity false
      end
  | Lt =>
      match round_magnitude (- q) with
      | Some r => if Qeq_bool r 0 then NegZero else Finite (Q2Qc (- r))
      | None => Infinity true
      end
  end.

(** [r] is the positive rational [a] rounded to the doubles around it:
    with [fl] the binary exponent of [a], the doubles there are the whole
    multiples of [2 ** e] for [e = max (fl - 52) (-1074)]; [r] is one of
    them, no further than half a step from [a], and an even multiple when
    [a] is exactly half way between two. *)
Definition rounds_to (a r : Q) : Prop :=
  ∃ fl m : Z,
    (pow2 fl <= a)%Q ∧ (a < pow2 (fl + 1))%Q ∧
    (r == inject_Z m * pow2 (Z.max (fl - 52) (-1074)))%Q ∧
    (Qabs (r - a) <= pow2 (Z.max (fl - 52) (-1074) - 1))%Q ∧
    ((Qabs (r - a) == pow2 (Z.max (fl - 52) (-1074) - 1))%Q →
     Z.even m = true).

(** [d] is the double nearest to the rational [q], ties to even: zero for
    zero, an infinity from [2 ** 1024] on, a zero with the sign of [q]
    when [q] rounds to nothing. *)
Definition nearest_double (q : Q) (d : double) : Prop :=
  match Qcompare q 0 with
  | Eq => d = Finite 0
  | Gt =>
      ∃ r, rounds_to q r ∧
           if Qle_bool (pow2 1024) r then d = Infinity false
           else d = Finite (Q2Qc r)
  | Lt =>
      ∃ r, rounds_to (- q) r ∧
           if Qle_bool (pow2 1024) r then d = Infinity true
           else if Qeq_bool r 0 then d = NegZero
           else d = Finite (Q2Qc (- r))
  end.

(** [x - y] on floats. *)
Definition fsub (x y : double) : double :=
  match x, y with
  | NaN, _ | _, NaN => NaN
  | Infinity sx, Infinity sy => if Bool.eqb sx sy then NaN else Infinity sx
  | Infinity sx, _ => Infinity sx
  | _, Infinity sy => Infinity (negb sy)
  | NegZero, NegZero => Finite 0
  | NegZero, Finite b =>
      if Qeq_bool b 0 then NegZero else round_to_double (- b)
  | Finite a, NegZero => Finite a
  | Finite a, Finite b => round_to_double (a - b)
  end.

(** Python's [round(x, 2)] on a float: the exact value is rounded to a
    whole number of hundredths, ties to even, and the double nearest to
    that is returned; a zero keeps the sign of [x]; infinities and NaN
    round to themselves. *)
Definition round2 (x : double) : double :=
  match x with
  | Finite q =>
      let k := round_half_even (q * 100) in
      if (k =? 0)%Z then
        if Qle_bool 0 q then Finite 0 else NegZero
      else round_to_double (inject_Z k / 100)
  | _ => x
  end.

(** [k / n] on non-negative integers, [n] not zero: the double nearest to
    the exact quotient. It is used on a count and a length, [k <= n]. *)
Definition true_divide (k n : nat) : double :=
  round_to_double (Qc_of_nat k / Qc_of_nat n)%Qc.

(** The values stored in [final_results]. Five of the ten are what a
    metric routine or the latency probe handed back, so these are also the
    objects such a call may return: a float, as the interfaces say, or an
    int, a string or [None]. *)
Inductive field : Type :=
| FNone
| FStr (s : string)
| FInt (z : Z)
| FFloat (x : double).

#[global] Instance field_eq_dec : EqDecision field.
Proof. solve_decision. Defined.

Abbreviation record := (gmap string field).

(** The exceptions that can surface in [main]. *)
Inductive exn : Type :=
| KeyError (k : string)
| TypeError
| OverflowError
| MetricError.

Inductive res (A : Type) : Type :=
| Ok (a : A)
| Raise (e : exn).
Arguments Ok {A} a.
Arguments Raise {A} e.

#[global] Instance res_ret : MRet res := λ A a, Ok a.

#[global] Instance res_bind : MBind res :=
  λ A B f r,
    match r with
    | Ok a => f a
    | Raise e => Raise e
    end.

(** ** [-] and [round] on what the collaborators return *)

(** An int operand of a float operation is converted first, to the nearest
    double; an int too large for a double is an OverflowError. *)
Definition float_of_int (z : Z) : res double :=
  match round_to_double (inject_Z z) with
  | Infinity _ => Raise OverflowError
  | x => Ok x
  end.

(** [a - b]: floats subtract as floats and ints as ints, an int meeting a
    float is converted, and neither [None] nor a string has a [-]. *)
Definition py_sub (a b : field) : res field :=
  match a, b with
  | FFloat x, FFloat y => Ok (FFloat (fsub x y))
  | FInt m, FInt n => Ok (FInt (m - n))
  | FInt m, FFloat y => x ← float_of_int m; mret (FFloat (fsub x y))
  | FFloat x, FInt n => y ← float_of_int n; mret (FFloat (fsub x y))
  | _, _ => Raise TypeError
  end.

(** [round(x, 2)]: a float is rounded to two decimal places, an int is
    returned as it is, and neither [None] nor a string can be rounded. *)
Definition py_round2 (x : field) : res field :=
  match x with
  | FFloat x => Ok (FFloat (round2 x))
  | FInt z => Ok (FInt z)
  | _ => Raise TypeError
  end.

(** The parsed command line ([args] after [parser.parse_args()]). *)
Record Args : Type := mkArgs {
  arg_model : string;
  arg_dataset : string;
  arg_attack : string;
  arg_quantization : option string;
  arg_num_samples : Z
}.

(** ** The metric routines *)

Definition label_pairs (a b : list value) : list (value * value) := zip a b.

Definition count_matches (reference predicted : list value) : nat :=
  length (filter (λ p, p.1 = p.2) (label_pairs reference predicted)).

Definition count_flips (original perturbed : list value) : nat :=
  length (filter (λ p, p.2 ≠ p.1) (label_pairs original perturbed)).

(** Modelled from the spec: [AccuracyEvaluator.calculate_accuracy] lives in
    metrics/accuracy.py, which is not among the sources.  The spec gives
    it as: requires equal-length sequences (a length mismatch is a
    MetricError that propagates); the count of positional matches divided
    by the length, as a float; zero-length input yields 0.0. *)
Definition calculate_accuracy (reference predicted : list value)
    : res double :=
  if decide (length reference = length predicted) then
    if decide (length reference = 0) then Ok (Finite 0)
    else Ok (true_divide (count_matches reference predicted)
                         (length reference))
  else Raise MetricError.

(** Modelled from the spec: [AttackSuccessRate.calculate_asr] lives in
    metrics/robustness.py, which is not among the sources.  The spec gives
    it as: the fraction of positions where the perturbed label differs
    from the original one, with the same length and zero-length contract
    as [calculate_accuracy]. *)
Definition calculate_asr (original perturbed : list value) : res double :=
  if decide (length original = length perturbed) then
    if decide (length original = 0) then Ok (Finite 0)
    else Ok (true_divide (count_flips original perturbed) (length original))
  else Raise MetricError.

(** ** Dicts and comprehensions *)

(** [d[k]] on a dict. *)
Definition getitem {V} (d : gmap string V) (k : string) : res V :=
  match d !! k with
  | Some v => Ok v
  | None => Raise (KeyError k)
  end.

(** [d.get(k, default)]; the default is an argument, evaluated by the
    caller before the call. *)
Definition dict_get {V} (d : gmap string V) (k : string) (default : V) : V :=
  match d !! k with
  | Some v => v
  | None => default
  end.

(** [[f(d) for d in l]], stopping at the first exception. *)
Fixpoint comprehension {A B} (f : A → res B) (l : list A) : res (list B) :=
  match l with
  | [] => Ok []
  | d :: l' =>
      match f d with
      | Raise e => Raise e
      | Ok b =>
          match comprehension f l' with
          | Raise e => Raise e
          | Ok bs => Ok (b :: bs)
          end
      end
  end.

(** Iterating over [results["adversarial_data"]] with a body that indexes
    each element by a string key: a list of dicts is traversed, the empty
    string has nothing to traverse, and anything else is a TypeError (a
    non-empty string at its first element, [None] at once). *)
Definition examples_of (v : rvalue) : res (list example) :=
  match v with
  | RList l => Ok l
  | RStr "" => Ok []
  | RStr _ => Raise TypeError
  | RNone => Raise TypeError
  end.

(** [d["label"]] *)
Definition label_of (d : example) : res value := getitem d "label".

(** [d.get("perturbed_label", d["label"])] *)
Definition perturbed_label_of (d : example) : res value :=
  match getitem d "label" with
  | Ok default => Ok (dict_get d "perturbed_label" default)
  | Raise e => Raise e
  end.

(** [d["text"]] *)
Definition text_of (d : example) : res value := getitem d "text".

Definition original_labels (adversarial_data : list example) : res (list value) :=
  comprehension label_of adversarial_data.

Definition perturbed_labels (adversarial_data : list example) : res (list value) :=
  comprehension perturbed_label_of adversarial_data.

Definition texts_of (adversarial_data : list example) : res (list value) :=
  comprehension text_of adversarial_data.

(** [args.quantization or 'No Quantization'] *)
Definition quantization_or_default (q : option string) : string :=
  match q with
  | None => "No Quantization"
  | Some "" => "No Quantization"
  | Some s => s
  end.

Definition field_of_option (q : option string) : field :=
  match q with
  | None => FNone
  | Some s => FStr s
  end.

(** The dict literal bound to [final_results]. Its values are evaluated
    from top to bottom; the two that are computed,
    [round(accuracy_before - accuracy_after, 2)] and
    [round(latency_after - latency_before, 2)], may raise. *)
Definition final_results_of (args : Args)
    (accuracy_before accuracy_after asr latency_before latency_after : field)
    : res record :=
  accuracy_drop ← py_sub accuracy_before accuracy_after ≫= py_round2;
  latency_increase_ms ← py_sub latency_after latency_before ≫= py_round2;
  mret (list_to_map [
    ("model", FStr (arg_model args));
    ("quantization", field_of_option (arg_quantization args));
    ("attack", FStr (arg_attack args));
    ("accuracy_before", accuracy_before);
    ("accuracy_after", accuracy_after);
    ("accuracy_drop", accuracy_drop);
    ("attack_success_rate", asr);
    ("latency_before_ms", latency_before);
    ("latency_after_ms", latency_after);
    ("latency_increase_ms", latency_increase_ms)
  ]).

(** ** Effects *)

(** What [main] writes to the log. The results line is an f-string over
    the whole record; it is kept structured. *)
Inductive log_msg : Type :=
| MsgText (s : string)
| MsgResults (r : record).

(** One entry per collaborator call, in program order. [Handle] is the
    type of the opaque model and tokenizer handles. *)
Inductive event {Handle : Type} : Type :=
| EvSetupLogger
| EvLogInfo (m : log_msg)
| EvLogError (s : string)
| EvBuild (model dataset attack : string) (quantization : option string)
| EvRunExperiment
| EvAccuracy (reference predicted : list value)
| EvAsr (original perturbed : list value)
| EvLatency (model : Handle) (texts : list value) (tokenizer : Handle)
| EvSaveJson (r : record)
| EvSaveCsv (rs : list record).
Arguments event Handle : clear implicits.

(** The state [main] runs in: the outside world that the experiment
    builder and the latency probe act on, and the trace so far. *)
Record state {Handle World : Type} : Type := mkState {
  world : World;
  trace : list (event Handle)
}.
Arguments state Handle World : clear implicits.
Arguments mkState {Handle World} world trace.

(** State passing, with exceptions: an exception keeps the state reached. *)
Definition M (Handle World A : Type) : Type :=
  state Handle World → res A * state Handle World.

#[global] Instance M_ret {Handle World} : MRet (M Handle World) :=
  λ A a s, (Ok a, s).

#[global] Instance M_bind {Handle World} : MBind (M Handle World) :=
  λ A B f m s,
    match m s with
    | (Ok a, s') => f a s'
    | (Raise e, s') => (Raise e, s')
    end.

Definition emit {Handle World} (e : event Handle) : M Handle World unit :=
  λ s, (Ok (), mkState (world s) (trace s ++ [e])).

Definition lift {Handle World A} (r : res A) : M Handle World A :=
  λ s, (r, s).

Definition on_world {Handle World A} (f : World → A * World) : M Handle World A :=
  λ s, let '(a, w) := f (world s) in (Ok a, mkState w (trace s)).

(** ** The entry point *)

Section Main.

(** Opaque handles (the loaded model and its tokenizer), the state of the
    experiment object, and the state of the outside world. *)
Context {Handle Experiment World : Type}.

(** The collaborators [main] is written against.
    [ExperimentBuilder(model, dataset, attack, quantization)] builds the
    experiment object; [run_experiment] returns the result dict and leaves
    the object holding the model and the tokenizer. [AccuracyEvaluator],
    [AttackSuccessRate] and [LatencyEvaluator] each stand for the one
    static method [main] calls on the class: [calculate_accuracy] and
    [calculate_asr] compute on two label lists and may raise,
    [measure_latency] runs the model and reads a clock. *)
Variable ExperimentBuilder :
  string → string → string → option string → World → Experiment * World.
Variable run_experiment :
  Experiment → World → gmap string rvalue * Experiment * World.
Variable experiment_model : Experiment → Handle.
Variable experiment_tokenizer : Experiment → Handle.
Variable AccuracyEvaluator : list value → list value → res field.
Variable AttackSuccessRate : list value → list value → res field.
Variable LatencyEvaluator :
  Handle → list value → Handle → World → field * World.

#[local] Abbreviation M' := (M Handle World).

(** The collaborator calls, each leaving its mark on the trace. *)
Definition Logger_setup_logger : M' unit := emit EvSetupLogger.

Definition logging_info (m : log_msg) : M' unit := emit (EvLogInfo m).

Definition logging_error (s : string) : M' unit := emit (EvLogError s).

Definition new_ExperimentBuilder (model dataset attack : string)
    (quantization : option string) : M' Experiment :=
  emit (EvBuild model dataset attack quantization);;
  on_world (ExperimentBuilder model dataset attack quantization).

Definition call_run_experiment (experiment : Experiment)
    : M' (gmap string rvalue * Experiment) :=
  emit EvRunExperiment;;
  on_world (run_experiment experiment).

Definition AccuracyEvaluator_calculate_accuracy (a b : list value)
    : M' field :=
  emit (EvAccuracy a b);;
  lift (AccuracyEvaluator a b).

Definition AttackSuccessRate_calculate_asr (a b : list value)
    : M' field :=
  emit (EvAsr a b);;
  lift (AttackSuccessRate a b).

Definition LatencyEvaluator_measure_latency (model : Handle)
    (texts : list value) (tokenizer : Handle) : M' field :=
  emit (EvLatency model texts tokenizer);;
  on_world (LatencyEvaluator model texts tokenizer).

Definition StorageManager_save_results_json (r : record) : M' unit :=
  emit (EvSaveJson r).

Definition StorageManager_save_results_csv (rs : list record) : M' unit :=
  emit (EvSaveCsv rs).

(** [main], from [args = parser.parse_args()] on. *)
Definition main (args : Args) : M' unit :=
  Logger_setup_logger;;
  logging_info (MsgText ("Running experiment: " +:+ arg_attack args
                         +:+ " on " +:+ arg_model args +:+ " with "
                         +:+ quantization_or_default (arg_quantization args)));;
  experiment ← new_ExperimentBuilder (arg_model args) (arg_dataset args)
                 (arg_attack args) (arg_quantization args);
  '(results, experiment) ← call_run_experiment experiment;
  status ← lift (getitem results "status");
  if decide (status ≠ RStr "success") then
    logging_error "Experiment failed. Exiting."
  else
    adversarial_data ← lift (getitem results "adversarial_data");
    examples ← lift (examples_of adversarial_data);
    original_labels ← lift (original_labels examples);
    perturbed_labels ← lift (perturbed_labels examples);
    accuracy_before ← AccuracyEvaluator_calculate_accuracy
                        original_labels original_labels;
    accuracy_after ← AccuracyEvaluator_calculate_accuracy
                       original_labels perturbed_labels;
    asr ← AttackSuccessRate_calculate_asr original_labels perturbed_labels;
    texts_before ← lift (texts_of examples);
    latency_before ← LatencyEvaluator_measure_latency
                       (experiment_model experiment) texts_before
                       (experiment_tokenizer experiment);
    texts_after ← lift (texts_of examples);
    latency_after ← LatencyEvaluator_measure_latency
                      (experiment_model experiment) texts_after
                      (experiment_tokenizer experiment);
    final_results ← lift (final_results_of args accuracy_before
                            accuracy_after asr latency_before latency_after);
    logging_info (MsgResults final_results);;
    StorageManager_save_results_json final_results;;
    StorageManager_save_results_csv [final_results];;
    logging_info (MsgText "Experiment completed successfully!").

(** What the two lines
    [experiment = ExperimentBuilder(...); results = experiment.run_experiment()]
    make of the outside world: the result dict, the experiment object and
    the world they leave behind. *)
Definition run_of (args : Args) (w : World)
    : gmap string rvalue * Experiment * World :=
  let '(experiment, w1) :=
    ExperimentBuilder (arg_model args) (arg_dataset args)
                      (arg_attack args) (arg_quantization args) w in
  run_experiment experiment w1.

End Main.

(** ** The collaborators as the spec describes them *)

(** A metric routine that returns a float, as [main] receives it. *)
Definition float_result (r : res double) : res field :=
  match r with
  | Ok x => Ok (FFloat x)
  | Raise e => Raise e
  end.

(** The two metric routines modelled from the spec. *)
Definition specified_accuracy (reference predicted : list value) : res field :=
  float_result (calculate_accuracy reference predicted).

Definition specified_asr (original perturbed : list value) : res field :=
  float_result (calculate_asr original perturbed).

(** A latency probe that returns a float, as [main] receives it. *)
Definition float_probe {Handle World : Type}
    (measure_latency : Handle → list value → Handle → World → double * World)
    : Handle → list value → Handle → World → field * World :=
  λ model texts tokenizer w,
    (FFloat (measure_latency model texts tokenizer w).1,
     (measure_latency model texts tokenizer w).2).

(** ** Reading a trace *)

Definition saved_json {Handle} (tr : list (event Handle)) : list record :=
  omap (λ ev, match ev with EvSaveJson r => Some r | _ => None end) tr.

Definition saved_csv {Handle} (tr : list (event Handle)) : list (list record) :=
  omap (λ ev, match ev with EvSaveCsv rs => Some rs | _ => None end) tr.

Definition accuracy_calls {Handle} (tr : list (event Handle))
    : list (list value * list value) :=
  omap (λ ev, match ev with EvAccuracy a b => Some (a, b) | _ => None end) tr.

Definition asr_calls {Handle} (tr : list (event Handle))
    : list (list value * list value) :=
  omap (λ ev, match ev with EvAsr a b => Some (a, b) | _ => None end) tr.

Definition latency_calls {Handle} (tr : list (event Handle))
    : list (Handle * list value * Handle) :=
  omap (λ ev, match ev with
              | EvLatency m texts t => Some (m, texts, t)
              | _ => None
              end) tr.

(** Which experiments a trace built, and how often one was run. *)
Definition build_calls {Handle} (tr : list (event Handle))
    : list (string * string * string * option string) :=
  omap (λ ev, match ev with
              | EvBuild model dataset attack quantization =>
                  Some (model, dataset, attack, quantization)
              | _ => None
              end) tr.

Definition run_calls {Handle} (tr : list (event Handle)) : list unit :=
  omap (λ ev, match ev with EvRunExperiment => Some () | _ => None end) tr.

(** The lines [main] logs at error level. *)
Definition error_lines {Handle} (tr : list (event Handle)) : list string :=
  omap (λ ev, match ev with EvLogError msg => Some msg | _ => None end) tr.

(** The ways a run of [main] can go once the experiment has been run: the
    outcome, and the events that follow the call of [run_experiment]. The
    metric routines are those of the run: an exception of theirs passes
    through [main]. *)
Inductive run_shape {Handle : Type}
    (AccuracyEvaluator AttackSuccessRate : list value → list value → res field)
    : res unit → list (event Handle) → Prop :=
| shape_raised_early (x : exn) :
    x ∈ [KeyError "status"; KeyError "adversarial_data"; TypeError;
         KeyError "label"] →
    run_shape AccuracyEvaluator AttackSuccessRate (Raise x) []
| shape_failed :
    run_shape AccuracyEvaluator AttackSuccessRate
              (Ok ()) [EvLogError "Experiment failed. Exiting."]
| shape_accuracy_before_raised (x : exn) (ls : list value) :
    AccuracyEvaluator ls ls = Raise x →
    run_shape AccuracyEvaluator AttackSuccessRate
              (Raise x) [EvAccuracy ls ls]
| shape_accuracy_after_raised (x : exn) (ls ps : list value) :
    AccuracyEvaluator ls ps = Raise x →
    run_shape AccuracyEvaluator AttackSuccessRate
              (Raise x) [EvAccuracy ls ls; EvAccuracy ls ps]
| shape_asr_raised (x : exn) (ls ps : list value) :
    AttackSuccessRate ls ps = Raise x →
    run_shape AccuracyEvaluator AttackSuccessRate
              (Raise x) [EvAccuracy ls ls; EvAccuracy ls ps; EvAsr ls ps]
| shape_no_text (ls ps : list value) :
    run_shape AccuracyEvaluator AttackSuccessRate
              (Raise (KeyError "text"))
              [EvAccuracy ls ls; EvAccuracy ls ps; EvAsr ls ps]
| shape_not_numbers (x : exn) (ls ps ts : list value) (m t : Handle) :
    x ∈ [TypeError; OverflowError] →
    run_shape AccuracyEvaluator AttackSuccessRate
              (Raise x)
              [ EvAccuracy ls ls; EvAccuracy ls ps; EvAsr ls ps;
                EvLatency m ts t; EvLatency m ts t ]
| shape_completed (ls ps ts : list value) (m t : Handle) (r : record) :
    run_shape AccuracyEvaluator AttackSuccessRate
              (Ok ())
              [ EvAccuracy ls ls; EvAccuracy ls ps; EvAsr ls ps;
                EvLatency m ts t; EvLatency m ts t;
                EvLogInfo (MsgResults r); EvSaveJson r; EvSaveCsv [r];
                EvLogInfo (MsgText "Experiment completed successfully!") ].

(** The finite number stored under key [k] of a record, if there is
    one. *)
Definition float_of (r : record) (k : string) : option Q :=
  match r !! k with
  | Some (FFloat (Finite q)) => Some (this q)
  | _ => None
  end.

(** An example as the data model has it: a text and a label, and maybe a
    perturbed label. *)
Definition well_formed (d : example) : Prop :=
  is_Some (d !! "label") ∧ is_Some (d !! "text").

(** A no-op perturbation: a perturbed label, where there is one, is the
    example's own label. *)
Definition unperturbed (d : example) : Prop :=
  ∀ p, d !! "perturbed_label" = Some p → d !! "label" = Some p.

(** What a run has made of [results] when it reports success. *)
Definition succeeded (results : gmap string rvalue) (data : list example) : Prop :=
  results !! "status" = Some (RStr "success") ∧
  results !! "adversarial_data" = Some (RList data).

(** A [run_experiment] that differs from [run] only in what the result
    dict holds under ["adversarial_data"]: [Some v] stores [v] there,
    [None] removes the key. *)
Definition with_adversarial_data {Experiment World : Type} (v : option rvalue)
    (run : Experiment → World → gmap string rvalue * Experiment * World)
    : Experiment → World → gmap string rvalue * Experiment * World :=
  λ experiment w,
    let '(results, experiment', w') := run experiment w in
    (partial_alter (λ _, v) "adversarial_data" results, experiment', w').

(** The events every run of [main] starts with, up to and including the
    call of [run_experiment]. *)
Definition opening {Handle : Type} (args : Args) : list (event Handle) :=
  [ EvSetupLogger;
    EvLogInfo (MsgText ("Running experiment: " +:+ arg_attack args
                        +:+ " on " +:+ arg_model args +:+ " with "
                        +:+ quantization_or_default (arg_quantization args)));
    EvBuild (arg_model args) (arg_dataset args) (arg_attack args)
            (arg_quantization args);
    EvRunExperiment ].

(** The ten keys of [final_results]. *)
Definition record_keys : gset string :=
  {[ "model"; "quantization"; "attack"; "accuracy_before"; "accuracy_after";
     "accuracy_drop"; "attack_success_rate"; "latency_before_ms";
     "latency_after_ms"; "latency_increase_ms" ]}.

(** [y] is [x] rounded to two decimal places. For a finite [x] of value
    [q], let [k] be the whole number nearest to [100 * q], the even one
    when [100 * q] is half way between two; [y] is the double nearest to
    [k / 100], or, when [k] is 0, the zero that has the sign of [x]. Minus
    zero, an infinity and NaN are left as they are. *)
Definition rounded_to_2_places (x y : double) : Prop :=
  match x with
  | Finite q =>
      ∃ k : Z,
        (Qabs (inject_Z k - q * 100) <= 1 # 2)%Q ∧
        ((Qabs (inject_Z k - q * 100) == 1 # 2)%Q → Z.even k = true) ∧
        (if decide (k = 0%Z)
         then y = (if Qle_bool 0 q then Finite 0 else NegZero)
         else nearest_double (inject_Z k / 100) y)
  | _ => y = x
  end.

(** [d] is the difference of the floats [x] and [y]: when both are finite,
    the double nearest to the exact difference of their values. *)
Definition is_difference (x y d : double) : Prop :=
  ∀ a b : Qc, x = Finite a → y = Finite b → nearest_double (a - b) d.

(** The exact value of a finite float. *)
Definition value_of (x : double) : option Q :=
  match x with
  | Finite q => Some (this q)
  | NegZero => Some 0%Q
  | _ => None
  end.

(** [args] with another value for [--num_samples]. *)
Definition with_num_samples (n : Z) (args : Args) : Args :=
  mkArgs (arg_model args) (arg_dataset args) (arg_attack args)
         (arg_quantization args) n.

(** ** A scripted environment

    Stand-ins for the collaborators, to run [main] on concrete inputs: the
    builder hands out a canned result dict, the handles are numbers, and
    the clock is a script of readings, consumed one per measurement. *)
Module Stub.

Definition builder {World : Type} (results : gmap string rvalue)
    (model dataset attack : string) (quantization : option string)
    (w : World) : gmap string rvalue * World :=
  (results, w).

Definition run {World : Type} (experiment : gmap string rvalue) (w : World)
    : gmap string rvalue * gmap string rvalue * World :=
  (experiment, experiment, w).

Definition model (experiment : gmap string rvalue) : nat := 1.

Definition tokenizer (experiment : gmap string rvalue) : nat := 2.

Definition latency (m : nat) (texts : list value) (t : nat) (w : list double)
    : double * list double :=
  match w with
  | [] => (Finite 0, [])
  | reading :: w' => (reading, w')
  end.

Definition entry (results : gmap string rvalue) (args : Args)
    : M nat (list double) unit :=
  main (builder results) run model tokenizer specified_accuracy specified_asr
       (float_probe latency) args.

(** A probe that keeps to no interface: the script holds whatever it is to
    hand back. *)
Definition probe (m : nat) (texts : list value) (t : nat) (w : list field)
    : field * list field :=
  match w with
  | [] => (FNone, [])
  | reading :: w' => (reading, w')
  end.

(** A run that starts with the given readings in the script. *)
Definition start_with (readings : list field) : state nat (list field) :=
  mkState readings [].

(** [main] over the scripted builder, with metric routines and probe
    readings of one's choice. *)
Definition entry_with
    (AccuracyEvaluator AttackSuccessRate : list value → list value → res field)
    (results : gmap string rvalue) (args : Args)
    : M nat (list field) unit :=
  main (builder results) run model tokenizer AccuracyEvaluator
       AttackSuccessRate probe args.

Definition success (data : list example) : gmap string rvalue :=
  <["status" := RStr "success"]> (<["adversarial_data" := RList data]> ∅).

Definition failure (reason : string) : gmap string rvalue :=
  <["status" := RStr "failure"]> (<["failure_reason" := RStr reason]> ∅).

Definition sample (text : string) (label : Z) (perturbed : option Z)
    : example :=
  let d : example := <["text" := VStr text]> (<["label" := VInt label]> ∅) in
  match perturbed with
  | Some p => <["perturbed_label" := VInt p]> d
  | None => d
  end.

Definition args (num_samples : Z) : Args :=
  mkArgs "meta-llama/Llama-2-7b" "imdb" "prompt_injection" (Some "GPTQ")
         num_samples.

(** Readings of 12.345 and 12.501 ms. *)
Definition clock : list double :=
  [round_to_double (12345 # 1000); round_to_double (12501 # 1000)].

Definition start : state nat (list double) := mkState clock [].

(** Three reviews: one left alone, one flipped, one relabelled as it was. *)
Definition attacked : list example :=
  [ sample "a fine film" 1%Z None;
    sample "a dull film" 0%Z (Some 1%Z);
    sample "a fine film, again" 1%Z (Some 1%Z) ].

(** Two reviews that the attack did not move. *)
Definition untouched : list example :=
  [ sample "a fine film" 1%Z None; sample "a dull film" 0%Z (Some 0%Z) ].

End Stub.

(** * Properties *)

Local Open Scope nat_scope.
Local Open Scope list_scope.

(** ** Proof steps *)

(** Reading the calls off a trace that grew by a known list of events. *)
Ltac read_trace :=
  unfold accuracy_calls, asr_calls, latency_calls, saved_json, saved_csv,
    opening;
  rewrite ?omap_app; cbn [omap list_omap app]; rewrite ?app_nil_r.

Ltac read_more :=
  unfold build_calls, run_calls, error_lines, accuracy_calls, asr_calls,
    latency_calls, saved_json, saved_csv, opening;
  rewrite ?omap_app; cbn [omap list_omap app]; rewrite ?app_nil_r.

(** Running [main] symbolically: through its own steps, through the
    collaborators of the spec, and through the record literal. *)
Ltac step_main :=
  unfold main, new_ExperimentBuilder, call_run_experiment, Logger_setup_logger,
    logging_info, logging_error, AccuracyEvaluator_calculate_accuracy,
    AttackSuccessRate_calculate_asr, LatencyEvaluator_measure_latency,
    StorageManager_save_results_json, StorageManager_save_results_csv,
    emit, on_world, lift, mbind, M_bind;
  cbn [world trace].

Ltac step_specified :=
  unfold specified_accuracy, specified_asr, float_probe.

Ltac step_record :=
  cbv [final_results_of py_sub py_round2 mbind res_bind mret res_ret].

Ltac read_record H :=
  cbv [final_results_of py_sub py_round2 mbind res_bind mret res_ret] in H;
  injection H as <-.

(** Discharging the premises of a claim in the scripted environment. *)
Ltac stub_run := reflexivity.
Ltac stub_succeeded := split; reflexivity.
Ltac stub_well_formed :=
  repeat first [apply Forall_nil_2 | apply Forall_cons_2];
  try (split; eexists; reflexivity);
  try (eexists; reflexivity).
Ltac stub_unperturbed :=
  repeat first [apply Forall_nil_2 | apply Forall_cons_2];
  intros p Hp; vm_compute in Hp; try discriminate Hp;
  injection Hp as <-; reflexivity.

(** ** Counters and quotients *)

Lemma Qc_of_nat_0 : Qc_of_nat 0 = 0%Qc.
Proof. apply Qc_is_canon. reflexivity. Qed.

Lemma Qc_of_nat_add (a b : nat) :
  Qc_of_nat (a + b) = (Qc_of_nat a + Qc_of_nat b)%Qc.
Proof.
  apply Qc_is_canon. unfold Qc_of_nat. simpl.
  rewrite !Qred_correct, Nat2Z.inj_add, inject_Z_plus. reflexivity.
Qed.

Lemma Qc_of_nat_le (a b : nat) : a ≤ b → (Qc_of_nat a ≤ Qc_of_nat b)%Qc.
Proof.
  intros Hab. unfold Qcle, Qc_of_nat. cbn [this Q2Qc].
  rewrite !Qred_correct, <- Zle_Qle. lia.
Qed.

Lemma Qc_of_nat_lt (a b : nat) : a < b → (Qc_of_nat a < Qc_of_nat b)%Qc.
Proof.
  intros Hab. unfold Qclt, Qc_of_nat. cbn [this Q2Qc].
  rewrite !Qred_correct, <- Zlt_Qlt. lia.
Qed.

Lemma Qc_of_nat_ne_0 (a : nat) : a ≠ 0 → Qc_of_nat a ≠ 0%Qc.
Proof.
  intros Ha Heq.
  assert (Hpos : (Qc_of_nat 0 < Qc_of_nat a)%Qc) by (apply Qc_of_nat_lt; lia).
  rewrite Heq, Qc_of_nat_0 in Hpos. by apply Qclt_not_eq in Hpos.
Qed.

Lemma quotient_self (n : nat) : n ≠ 0 → (Qc_of_nat n / Qc_of_nat n)%Qc = 1%Qc.
Proof. intros Hn. apply Qcmult_inv_r. by apply Qc_of_nat_ne_0. Qed.

Lemma quotient_zero (n : nat) : (Qc_of_nat 0 / Qc_of_nat n)%Qc = 0%Qc.
Proof. rewrite Qc_of_nat_0. unfold Qcdiv. ring. Qed.

Lemma quotient_complement (k j n : nat) :
  n ≠ 0 → k + j = n →
  (Qc_of_nat k / Qc_of_nat n)%Qc = (1 - Qc_of_nat j / Qc_of_nat n)%Qc.
Proof.
  intros Hn Hsum. pose proof (Qc_of_nat_ne_0 n Hn) as Hn'.
  rewrite <- Hsum, Qc_of_nat_add in Hn' |- *.
  field. exact Hn'.
Qed.

Lemma quotient_bounds (k n : nat) :
  n ≠ 0 → k ≤ n →
  (0 ≤ Qc_of_nat k / Qc_of_nat n)%Qc ∧ (Qc_of_nat k / Qc_of_nat n ≤ 1)%Qc.
Proof.
  intros Hn Hk.
  assert (Hpos : (0 < Qc_of_nat n)%Qc).
  { rewrite <- Qc_of_nat_0. apply Qc_of_nat_lt. lia. }
  assert (Hinv : (0 ≤ / Qc_of_nat n)%Qc).
  { apply Qclt_le_weak. by apply Qcinv_pos. }
  split.
  - unfold Qcdiv. apply Qcmult_nonneg_nonneg; [|done].
    rewrite <- Qc_of_nat_0. apply Qc_of_nat_le. lia.
  - rewrite <- (quotient_self n Hn). unfold Qcdiv.
    apply Qcmult_le_mono_nonneg_r; [done|]. by apply Qc_of_nat_le.
Qed.

(** ** Rounding *)

Lemma round_half_even_near (q : Q) :
  (q - (1 # 2) <= inject_Z (round_half_even q) <= q + (1 # 2))%Q.
Proof.
  unfold round_half_even.
  pose proof (Qfloor_le q) as Hlo. pose proof (Qlt_floor q) as Hhi.
  rewrite inject_Z_plus in Hhi. change (inject_Z 1) with 1%Q in Hhi.
  destruct (Qcompare_spec (q - inject_Z (Qfloor q)) (1 # 2)) as [He|Hl|Hg].
  - destruct (Z.even (Qfloor q)).
    + lra.
    + rewrite inject_Z_plus. change (inject_Z 1) with 1%Q. lra.
  - lra.
  - rewrite inject_Z_plus. change (inject_Z 1) with 1%Q. lra.
Qed.

(** ** Powers of two *)

Lemma pow2_Qpower (e : Z) : (pow2 e == 2 ^ e)%Q.
Proof.
  destruct e as [|p|p]; cbn [pow2].
  - reflexivity.
  - rewrite Pos2Z.inj_pow. by rewrite Zpower_Qpower.
  - change (2 ^ Z.neg p)%Q with (/ 2 ^ Z.pos p)%Q.
    rewrite <- (Zpower_Qpower 2 (Z.pos p)) by done.
    rewrite <- Pos2Z.inj_pow. reflexivity.
Qed.

Lemma pow2_pos (e : Z) : (0 < pow2 e)%Q.
Proof. rewrite pow2_Qpower. by apply Qpower_0_lt. Qed.

Lemma pow2_add (a b : Z) : (pow2 (a + b) == pow2 a * pow2 b)%Q.
Proof. rewrite !pow2_Qpower. by apply Qpower_plus. Qed.

Lemma pow2_succ (e : Z) : (pow2 (e + 1) == 2 * pow2 e)%Q.
Proof. rewrite pow2_add. change (pow2 1) with 2%Q. ring. Qed.

Lemma pow2_pred (e : Z) : (pow2 (e - 1) == (1 # 2) * pow2 e)%Q.
Proof.
  replace e with ((e - 1) + 1)%Z at 2 by lia. rewrite pow2_succ. field.
Qed.

Lemma pow2_inject (z : Z) : (0 ≤ z)%Z → (pow2 z == inject_Z (2 ^ z))%Q.
Proof. intros Hz. rewrite pow2_Qpower. by rewrite Zpower_Qpower. Qed.

Lemma pow2_le (a b : Z) : (a ≤ b)%Z → (pow2 a <= pow2 b)%Q.
Proof.
  intros Hab. replace b with (a + (b - a))%Z by lia. rewrite pow2_add.
  rewrite <- (Qmult_1_r (pow2 a)) at 1.
  apply Qmult_le_l; [apply pow2_pos|].
  rewrite pow2_inject by lia. change 1%Q with (inject_Z 1).
  rewrite <- Zle_Qle. pose proof (Z.pow_pos_nonneg 2 (b - a)). lia.
Qed.

(** ** The binary exponent *)

Lemma floor_log2_spec (a : Q) :
  (0 < a)%Q →
  (pow2 (floor_log2 a) <= a)%Q ∧ (a < pow2 (floor_log2 a + 1))%Q.
Proof.
  intros Ha. unfold floor_log2.
  destruct a as [n d]. cbn [Qnum Qden].
  assert (Hn : (0 < n)%Z) by (unfold Qlt in Ha; cbn in Ha; lia).
  destruct (Z.log2_spec n Hn) as [Hn1 Hn2].
  destruct (Z.log2_spec (Z.pos d) eq_refl) as [Hd1 Hd2].
  pose proof (Z.log2_nonneg n) as Hln.
  pose proof (Z.log2_nonneg (Z.pos d)) as Hld.
  set (ln := Z.log2 n) in *. set (ld := Z.log2 (Z.pos d)) in *.
  assert (Hnd : (n # d == inject_Z n / inject_Z (Z.pos d))%Q).
  { unfold Qdiv, Qinv, Qmult, Qeq, inject_Z. cbn. lia. }
  assert (Hdpos : (0 < inject_Z (Z.pos d))%Q) by (unfold Qlt; cbn; lia).
  (* strict bounds one binade either side *)
  assert (Hlow : (pow2 (ln - ld - 1) < n # d)%Q).
  { rewrite Hnd. apply Qlt_shift_div_l; [done|].
    apply Qlt_le_trans with (pow2 (ln - ld - 1) * inject_Z (2 ^ Z.succ ld))%Q.
    - apply Qmult_lt_l; [apply pow2_pos|]. by rewrite <- Zlt_Qlt.
    - rewrite <- pow2_inject by lia. rewrite <- pow2_add.
      replace (ln - ld - 1 + Z.succ ld)%Z with ln by lia.
      rewrite pow2_inject by lia. by rewrite <- Zle_Qle. }
  assert (Hupp : (n # d < pow2 (ln - ld + 1))%Q).
  { rewrite Hnd. apply Qlt_shift_div_r; [done|].
    apply Qlt_le_trans with (inject_Z (2 ^ Z.succ ln)).
    - by rewrite <- Zlt_Qlt.
    - rewrite <- pow2_inject by lia.
      replace (Z.succ ln) with (ln - ld + 1 + ld)%Z by lia.
      rewrite pow2_add. apply Qmult_le_l; [apply pow2_pos|].
      rewrite pow2_inject by lia. by rewrite <- Zle_Qle. }
  destruct (Qle_bool (pow2 (ln - ld)) (n # d)) eqn:Hc.
  - apply Qle_bool_iff in Hc. by split.
  - split; [by apply Qlt_le_weak|].
    replace (ln - ld - 1 + 1)%Z with (ln - ld)%Z by lia.
    apply Qnot_le_lt. intros Hle. apply Qle_bool_iff in Hle. congruence.
Qed.

(** ** Rounding to the nearest double *)

(** Half way between two integers, the even one is taken. *)
Lemma round_half_even_tie (q : Q) :
  (Qabs (inject_Z (round_half_even q) - q) == 1 # 2)%Q →
  Z.even (round_half_even q) = true.
Proof.
  unfold round_half_even.
  pose proof (Qfloor_le q) as Hlo. pose proof (Qlt_floor q) as Hhi.
  rewrite inject_Z_plus in Hhi. change (inject_Z 1) with 1%Q in Hhi.
  destruct (Qcompare_spec (q - inject_Z (Qfloor q)) (1 # 2)) as [He|Hl|Hg].
  - intros _. destruct (Z.even (Qfloor q)) eqn:Hev; [done|].
    rewrite Z.even_add, Hev. reflexivity.
  - intros Htie. rewrite Qabs_neg in Htie by lra. lra.
  - rewrite inject_Z_plus. change (inject_Z 1) with 1%Q.
    intros Htie. rewrite Qabs_pos in Htie by lra. lra.
Qed.

Lemma round_half_even_abs (q : Q) :
  (Qabs (inject_Z (round_half_even q) - q) <= 1 # 2)%Q.
Proof.
  destruct (round_half_even_near q). apply Qabs_Qle_condition. split; lra.
Qed.

(** What [round_magnitude] computes before it checks for overflow is
    [a] rounded to the doubles around it. *)
Lemma round_magnitude_rounds (a : Q) :
  (0 < a)%Q →
  let e := Z.max (floor_log2 a - 52) (-1074) in
  let m := round_half_even (a / pow2 e) in
  rounds_to a (Qred (inject_Z m * pow2 e)).
Proof.
  intros Ha e m. destruct (floor_log2_spec a Ha) as [Hlo Hhi].
  exists (floor_log2 a), m. fold e.
  pose proof (pow2_pos e) as He.
  assert (Hdiff : (Qred (inject_Z m * pow2 e) - a
                   == (inject_Z m - a / pow2 e) * pow2 e)%Q).
  { rewrite Qred_correct. field. lra. }
  assert (Habs : (Qabs (Qred (inject_Z m * pow2 e) - a)
                  == Qabs (inject_Z m - a / pow2 e) * pow2 e)%Q).
  { rewrite Hdiff, Qabs_Qmult. rewrite (Qabs_pos (pow2 e)) by lra. reflexivity. }
  split; [done|]. split; [done|]. split; [apply Qred_correct|].
  rewrite Habs, pow2_pred. split.
  - apply Qmult_le_compat_r; [apply round_half_even_abs|lra].
  - intros Htie. apply round_half_even_tie. fold m.
    apply (Qmult_inj_r _ _ (pow2 e)); [lra|done].
Qed.

(** [round_to_double] gives the nearest double. *)
Lemma round_to_double_nearest (q : Q) : nearest_double q (round_to_double q).
Proof.
  unfold nearest_double, round_to_double, round_magnitude.
  destruct (Qcompare_spec q 0) as [Hz|Hneg|Hpos]; [done| |].
  - eexists. split; [apply round_magnitude_rounds; lra|].
    destruct (Qle_bool _ _); [done|]. by destruct (Qeq_bool _ _).
  - eexists. split; [by apply round_magnitude_rounds|].
    by destruct (Qle_bool _ _).
Qed.

(** The binary exponent of a positive rational is unique. *)
Lemma binade_unique (a : Q) (f1 f2 : Z) :
  (pow2 f1 <= a)%Q → (a < pow2 (f1 + 1))%Q →
  (pow2 f2 <= a)%Q → (a < pow2 (f2 + 1))%Q →
  f1 = f2.
Proof.
  intros H1 H1' H2 H2'.
  destruct (Z.lt_trichotomy f1 f2) as [Hlt|[Heq|Hgt]]; [|done|].
  - pose proof (pow2_le (f1 + 1) f2 ltac:(lia)). lra.
  - pose proof (pow2_le (f2 + 1) f1 ltac:(lia)). lra.
Qed.

(** Rounding to the doubles around [a] has one result. *)
Lemma rounds_to_unique (a r1 r2 : Q) :
  rounds_to a r1 → rounds_to a r2 → (r1 == r2)%Q.
Proof.
  intros (f1 & m1 & Hlo1 & Hhi1 & Hr1 & Hn1 & Ht1)
         (f2 & m2 & Hlo2 & Hhi2 & Hr2 & Hn2 & Ht2).
  assert (f2 = f1) as -> by by eapply binade_unique.
  set (e := Z.max (f1 - 52) (-1074)) in *.
  pose proof (pow2_pos e) as Hg. pose proof (pow2_pred e) as Hh.
  set (g := pow2 e) in *. set (h := pow2 (e - 1)) in *.
  apply Qabs_Qle_condition in Hn1 as [Hn1l Hn1u].
  apply Qabs_Qle_condition in Hn2 as [Hn2l Hn2u].
  assert (Hd : ((inject_Z m1 - inject_Z m2) * g == r1 - r2)%Q)
    by (rewrite Hr1, Hr2; ring).
  assert (Hm : (-1 ≤ m1 - m2 ≤ 1)%Z).
  { split.
    - destruct (Z_lt_le_dec (m1 - m2) (-1)) as [Hlt|]; [|done].
      assert (H : (inject_Z m1 + 2 <= inject_Z m2)%Q).
      { change 2%Q with (inject_Z 2).
        rewrite <- inject_Z_plus, <- Zle_Qle. lia. }
      apply (Qmult_le_compat_r _ _ g) in H; [|lra]. lra.
    - destruct (Z_lt_le_dec 1 (m1 - m2)) as [Hlt|]; [|done].
      assert (H : (inject_Z m2 + 2 <= inject_Z m1)%Q).
      { change 2%Q with (inject_Z 2).
        rewrite <- inject_Z_plus, <- Zle_Qle. lia. }
      apply (Qmult_le_compat_r _ _ g) in H; [|lra]. lra. }
  assert (Hcases : (m1 = m2 ∨ m1 = m2 + 1 ∨ m2 = m1 + 1)%Z) by lia.
  destruct Hcases as [->|[->| ->]].
  - by rewrite Hr1, Hr2.
  - rewrite inject_Z_plus in Hd. change (inject_Z 1) with 1%Q in Hd.
    assert (E1 : (Qabs (r1 - a) == h)%Q) by (rewrite Qabs_pos; lra).
    assert (E2 : (Qabs (r2 - a) == h)%Q) by (rewrite Qabs_neg; lra).
    apply Ht1 in E1. apply Ht2 in E2.
    rewrite Z.even_add, E2 in E1. done.
  - rewrite inject_Z_plus in Hd. change (inject_Z 1) with 1%Q in Hd.
    assert (E1 : (Qabs (r1 - a) == h)%Q) by (rewrite Qabs_neg; lra).
    assert (E2 : (Qabs (r2 - a) == h)%Q) by (rewrite Qabs_pos; lra).
    apply Ht1 in E1. apply Ht2 in E2.
    rewrite Z.even_add, E1 in E2. done.
Qed.

(** There is one nearest double. *)
Lemma nearest_double_unique (q : Q) (d1 d2 : double) :
  nearest_double q d1 → nearest_double q d2 → d1 = d2.
Proof.
  unfold nearest_double.
  destruct (Qcompare q 0); [congruence| |].
  - intros (r1 & Hr1 & H1) (r2 & Hr2 & H2).
    pose proof (rounds_to_unique _ _ _ Hr1 Hr2) as Heq.
    assert (Hle : Qle_bool (pow2 1024) r2 = Qle_bool (pow2 1024) r1)
      by by rewrite Heq.
    assert (Hz : Qeq_bool r2 0 = Qeq_bool r1 0) by by rewrite Heq.
    assert (Hc : Q2Qc (- r2) = Q2Qc (- r1))
      by (apply Q2Qc_eq_iff; by rewrite Heq).
    rewrite Hle, Hz, Hc in H2.
    destruct (Qle_bool (pow2 1024) r1); [congruence|].
    destruct (Qeq_bool r1 0); congruence.
  - intros (r1 & Hr1 & H1) (r2 & Hr2 & H2).
    pose proof (rounds_to_unique _ _ _ Hr1 Hr2) as Heq.
    assert (Hle : Qle_bool (pow2 1024) r2 = Qle_bool (pow2 1024) r1)
      by by rewrite Heq.
    assert (Hc : Q2Qc r2 = Q2Qc r1) by (apply Q2Qc_eq_iff; by rewrite Heq).
    rewrite Hle, Hc in H2.
    destruct (Qle_bool (pow2 1024) r1); congruence.
Qed.

(** Rounding does not leave an interval with whole-number ends. *)
Lemma round_half_even_between (q : Q) (lo hi : Z) :
  (inject_Z lo <= q)%Q → (q <= inject_Z hi)%Q →
  (lo ≤ round_half_even q ≤ hi)%Z.
Proof.
  intros Hlo Hhi. destruct (round_half_even_near q) as [Hn1 Hn2].
  split.
  - destruct (Z_lt_le_dec (round_half_even q) lo) as [Hlt|]; [|done].
    assert (H : (inject_Z (round_half_even q + 1) <= inject_Z lo)%Q)
      by (rewrite <- Zle_Qle; lia).
    rewrite inject_Z_plus in H. change (inject_Z 1) with 1%Q in H. lra.
  - assert (H : (inject_Z (round_half_even q) < inject_Z (hi + 1))%Q).
    { rewrite inject_Z_plus. change (inject_Z 1) with 1%Q. lra. }
    rewrite <- Zlt_Qlt in H. lia.
Qed.

Lemma pow2_neg (p : positive) : pow2 (Zneg p) = 1 # (2 ^ p).
Proof. reflexivity. Qed.

Lemma floor_log2_unit (q : Q) : (0 < q)%Q → (q <= 1)%Q → (floor_log2 q ≤ 0)%Z.
Proof.
  intros Hpos Hle. unfold floor_log2.
  assert (Hc : (Z.log2 (Qnum q) - Z.log2 (Zpos (Qden q)) ≤ 0)%Z).
  { destruct q as [n d]. unfold Qle in Hle. cbn [Qnum Qden] in *.
    assert (Hnd : (n ≤ Zpos d)%Z) by lia.
    apply Z.log2_le_mono in Hnd. lia. }
  destruct (Qle_bool _ _); lia.
Qed.

(** On the unit interval, rounding to a double stays in the interval and
    moves the number by no more than 2^-53. *)
Lemma round_to_double_unit (q : Q) :
  (0 <= q)%Q → (q <= 1)%Q →
  ∃ r : Qc,
    round_to_double q = Finite r ∧
    (0 <= r)%Q ∧ (r <= 1)%Q ∧
    (q - (1 # 2 ^ 53) <= r)%Q ∧ (r <= q + (1 # 2 ^ 53))%Q.
Proof.
  intros H0 H1. unfold round_to_double.
  set (h := (1 # 2 ^ 53)%Q). assert (Hh : (0 < h)%Q) by reflexivity.
  destruct (Qcompare_spec q 0) as [Hz|Hneg|Hpos]; [|lra|].
  { exists 0%Qc. split; [done|]. change (this 0%Qc) with 0%Q.
    repeat split; lra. }
  unfold round_magnitude.
  pose proof (floor_log2_unit q Hpos H1) as Hfl.
  set (e := Z.max (floor_log2 q - 52) (-1074)).
  assert (He : (-1074 ≤ e ≤ -52)%Z) by lia.
  destruct e as [|p|p] eqn:Hep; [lia|lia|].
  rewrite pow2_neg.
  set (N := (2 ^ p)%positive).
  assert (HN : (Zpos (2 ^ 52) ≤ Zpos N)%Z).
  { unfold N. rewrite !Pos2Z.inj_pow. apply Z.pow_le_mono_r; lia. }
  set (m := round_half_even (q / (1 # N))).
  assert (Hscaled : (q / (1 # N) == q * inject_Z (Zpos N))%Q).
  { unfold Qdiv, Qinv. cbn. reflexivity. }
  destruct (round_half_even_between (q / (1 # N)) 0 (Zpos N)) as [Hm0 HmN].
  { rewrite Hscaled. change (inject_Z 0) with 0%Q.
    apply Qmult_le_0_compat; [lra|]. unfold inject_Z, Qle. cbn. lia. }
  { rewrite Hscaled. rewrite <- (Qmult_1_l (inject_Z (Zpos N))) at 2.
    apply Qmult_le_compat_r; [lra|]. unfold inject_Z, Qle. cbn. lia. }
  destruct (round_half_even_near (q / (1 # N))) as [Hn1 Hn2].
  fold m in Hm0, HmN, Hn1, Hn2. rewrite Hscaled in Hn1, Hn2.
  assert (Hr : (Qred (inject_Z m * (1 # N)) == inject_Z m * (1 # N))%Q)
    by apply Qred_correct.
  assert (HNpos : (0 < inject_Z (Zpos N))%Q) by (unfold inject_Z, Qlt; cbn; lia).
  assert (Hinv : ((1 # N) * inject_Z (Zpos N) == 1)%Q).
  { unfold Qmult, inject_Z, Qeq. cbn. lia. }
  assert (Hsmall : ((1 # N) <= (1 # 2 ^ 52))%Q).
  { unfold Qle. cbn. lia. }
  assert (HNp : (0 < (1 # N))%Q) by reflexivity.
  assert (Hm0' : (0 <= inject_Z m)%Q).
  { change 0%Q with (inject_Z 0). by rewrite <- Zle_Qle. }
  assert (HmN' : (inject_Z m <= inject_Z (Zpos N))%Q) by by rewrite <- Zle_Qle.
  assert (Hle1 : (inject_Z m * (1 # N) <= 1)%Q).
  { rewrite <- Hinv. rewrite (Qmult_comm (1 # N)).
    apply Qmult_le_compat_r; [done|lra]. }
  assert (Hlo : (q - (1 # 2) * (1 # N) <= inject_Z m * (1 # N))%Q).
  { assert (H : ((q * inject_Z (Zpos N) - (1 # 2)) * (1 # N)
                 <= inject_Z m * (1 # N))%Q)
      by (apply Qmult_le_compat_r; lra).
    assert (E : ((q * inject_Z (Zpos N) - (1 # 2)) * (1 # N)
                 == q * ((1 # N) * inject_Z (Zpos N)) - (1 # 2) * (1 # N))%Q)
      by ring.
    rewrite E, Hinv in H. lra. }
  assert (Hhi : (inject_Z m * (1 # N) <= q + (1 # 2) * (1 # N))%Q).
  { assert (H : (inject_Z m * (1 # N)
                 <= (q * inject_Z (Zpos N) + (1 # 2)) * (1 # N))%Q)
      by (apply Qmult_le_compat_r; lra).
    assert (E : ((q * inject_Z (Zpos N) + (1 # 2)) * (1 # N)
                 == q * ((1 # N) * inject_Z (Zpos N)) + (1 # 2) * (1 # N))%Q)
      by ring.
    rewrite E, Hinv in H. lra. }
  assert (Hhalf : ((1 # 2) * (1 # N) <= h)%Q).
  { unfold h, Qmult, Qle. cbn [Qnum Qden]. rewrite Pos2Z.inj_mul.
    change (Zpos (2 ^ 53)) with (2 * Zpos (2 ^ 52))%Z. lia. }
  destruct (Qle_bool (pow2 1024) (Qred (inject_Z m * (1 # N)))) eqn:Hover.
  { apply Qle_bool_iff in Hover. rewrite Hr in Hover.
    assert (1 < pow2 1024)%Q by reflexivity. lra. }
  assert (Hx0 : (0 <= inject_Z m * (1 # N))%Q).
  { apply Qmult_le_0_compat; [done|by apply Qlt_le_weak]. }
  eexists. split; [done|]. cbn [this Q2Qc].
  rewrite !Qred_correct.
  revert Hx0 Hle1 Hlo Hhi Hhalf.
  generalize (inject_Z m * (1 # N))%Q ((1 # 2) * (1 # N))%Q.
  intros x y Hx0 Hle1 Hlo Hhi Hhalf. repeat split; lra.
Qed.

(** ** Float arithmetic *)

Lemma true_divide_self (n : nat) : n ≠ 0 → true_divide n n = Finite 1.
Proof. intros Hn. unfold true_divide. by rewrite quotient_self. Qed.

Lemma true_divide_zero (n : nat) : true_divide 0 n = Finite 0.
Proof. unfold true_divide. by rewrite quotient_zero. Qed.

(** A quotient of counters [k <= n] is a float between 0 and 1, within
    2^-53 of the exact quotient. *)
Lemma true_divide_unit (k n : nat) :
  n ≠ 0 → k ≤ n →
  ∃ r : Qc,
    true_divide k n = Finite r ∧
    (0 ≤ r)%Qc ∧ (r ≤ 1)%Qc ∧
    ((Qc_of_nat k / Qc_of_nat n)%Qc - (1 # 2 ^ 53) <= r)%Q ∧
    (r <= (Qc_of_nat k / Qc_of_nat n)%Qc + (1 # 2 ^ 53))%Q.
Proof.
  intros Hn Hk. destruct (quotient_bounds k n Hn Hk) as [Hlo Hhi].
  destruct (round_to_double_unit (Qc_of_nat k / Qc_of_nat n)%Qc)
    as (r & Hr & H0 & H1 & Hdn & Hup); [exact Hlo|exact Hhi|].
  exists r. by repeat split.
Qed.

Lemma fsub_self (a : Qc) : fsub (Finite a) (Finite a) = Finite 0.
Proof.
  unfold fsub, round_to_double.
  assert (H : (a - a == 0)%Q) by ring.
  apply Qeq_alt in H. by rewrite H.
Qed.

Lemma round2_zero : round2 (Finite 0) = Finite 0.
Proof. reflexivity. Qed.

(** [fsub] on finite floats gives the nearest double to the difference. *)
Lemma fsub_nearest (x y : double) : is_difference x y (fsub x y).
Proof. intros a b -> ->. apply round_to_double_nearest. Qed.

(** [round2] rounds to two decimal places. *)
Lemma round2_rounds (x : double) : rounded_to_2_places x (round2 x).
Proof.
  destruct x as [q| | |]; cbn [rounded_to_2_places round2]; try done.
  exists (round_half_even (q * 100)).
  split; [apply round_half_even_abs|]. split; [apply round_half_even_tie|].
  destruct (Z.eqb_spec (round_half_even (q * 100)) 0) as [Hk|Hk].
  - by rewrite decide_True.
  - rewrite decide_False by done. apply round_to_double_nearest.
Qed.

(** ** The metric routines *)

Lemma count_split (r p : list value) :
  count_matches r p + count_flips r p = length (label_pairs r p).
Proof.
  unfold count_matches, count_flips.
  induction (label_pairs r p) as [|[a b] l IH]; [done|].
  rewrite !filter_cons. cbn [fst snd].
  destruct (decide (a = b)) as [->|Hne].
  - rewrite decide_False by naive_solver. cbn [length]. lia.
  - rewrite decide_True by naive_solver. cbn [length]. lia.
Qed.

Lemma length_label_pairs (r p : list value) :
  length r = length p → length (label_pairs r p) = length r.
Proof. intros Hlen. unfold label_pairs. rewrite length_zip. lia. Qed.

Lemma count_flips_self (r : list value) : count_flips r r = 0.
Proof.
  unfold count_flips, label_pairs.
  induction r as [|a r IH]; [done|].
  cbn [zip zip_with]. rewrite filter_cons. cbn [fst snd].
  by rewrite decide_False by naive_solver.
Qed.

Lemma count_matches_self (r : list value) : count_matches r r = length r.
Proof.
  pose proof (count_split r r) as Hsplit.
  rewrite count_flips_self, length_label_pairs in Hsplit by done. lia.
Qed.

Lemma calculate_accuracy_self (r : list value) :
  calculate_accuracy r r =
    Ok (if decide (length r = 0) then Finite 0 else Finite 1).
Proof.
  unfold calculate_accuracy. rewrite decide_True by done.
  destruct (decide (length r = 0)) as [|Hn]; [done|].
  by rewrite count_matches_self, true_divide_self.
Qed.

Lemma calculate_asr_self (r : list value) :
  calculate_asr r r = Ok (Finite 0).
Proof.
  unfold calculate_asr. rewrite decide_True by done.
  destruct (decide (length r = 0)) as [|Hn]; [done|].
  by rewrite count_flips_self, true_divide_zero.
Qed.

Lemma calculate_accuracy_ok (r p : list value) :
  length r = length p → ∃ a, calculate_accuracy r p = Ok a.
Proof.
  intros Hlen. unfold calculate_accuracy. rewrite decide_True by done.
  destruct (decide (length r = 0)); eauto.
Qed.

Lemma calculate_asr_ok (r p : list value) :
  length r = length p → ∃ a, calculate_asr r p = Ok a.
Proof.
  intros Hlen. unfold calculate_asr. rewrite decide_True by done.
  destruct (decide (length r = 0)); eauto.
Qed.

Lemma count_matches_bound (r p : list value) :
  count_matches r p ≤ length r.
Proof.
  unfold count_matches, label_pairs.
  etrans; [apply length_filter|]. rewrite length_zip. lia.
Qed.

(** An accuracy is a finite float. *)
Lemma calculate_accuracy_finite (r p : list value) (a : double) :
  calculate_accuracy r p = Ok a → ∃ q : Qc, a = Finite q.
Proof.
  unfold calculate_accuracy.
  destruct (decide (length r = length p)); [|done].
  destruct (decide (length r = 0)) as [|Hn]; [intros [= <-]; eauto|].
  intros [= <-].
  destruct (true_divide_unit (count_matches r p) (length r))
    as (q & Hq & _); [done|apply count_matches_bound|]. eauto.
Qed.

(** ** Comprehensions *)

Lemma comprehension_cons {A B} (f : A → res B) (d : A) (l : list A) (bs : list B) :
  comprehension f (d :: l) = Ok bs →
  ∃ b bs', bs = b :: bs' ∧ f d = Ok b ∧ comprehension f l = Ok bs'.
Proof.
  cbn [comprehension]. destruct (f d) as [b|]; [|done].
  destruct (comprehension f l) as [bs'|]; [|done].
  intros [= <-]. eauto.
Qed.

Lemma comprehension_length {A B} (f : A → res B) (l : list A) (bs : list B) :
  comprehension f l = Ok bs → length bs = length l.
Proof.
  revert bs. induction l as [|d l IH]; intros bs.
  - by intros [= <-].
  - intros (b & bs' & -> & _ & Hrest)%comprehension_cons.
    cbn [length]. f_equal. by apply IH.
Qed.

Lemma comprehension_lookup {A B} (f : A → res B) (l : list A) (bs : list B)
    (i : nat) (d : A) :
  comprehension f l = Ok bs → l !! i = Some d →
  ∃ b, f d = Ok b ∧ bs !! i = Some b.
Proof.
  revert bs i. induction l as [|d' l IH]; intros bs i; [done|].
  intros (b & bs' & -> & Hd & Hrest)%comprehension_cons.
  destruct i as [|i]; cbn.
  - intros [= ->]. eauto.
  - by apply IH.
Qed.

Lemma comprehension_ok {A B} (f : A → res B) (l : list A) :
  Forall (λ d, ∃ b, f d = Ok b) l → ∃ bs, comprehension f l = Ok bs.
Proof.
  induction 1 as [|d l [b Hb] _ [bs Hbs]]; [by eexists|].
  exists (b :: bs). cbn [comprehension]. by rewrite Hb, Hbs.
Qed.

Lemma comprehension_ext {A B} (f g : A → res B) (l : list A) :
  Forall (λ d, f d = g d) l → comprehension f l = comprehension g l.
Proof.
  induction 1 as [|d l Hd _ IH]; [done|].
  cbn [comprehension]. by rewrite Hd, IH.
Qed.

Lemma labels_built (data : list example) :
  Forall (λ d, is_Some (d !! "label")) data →
  ∃ ls ps, original_labels data = Ok ls ∧ perturbed_labels data = Ok ps.
Proof.
  intros Hdata.
  destruct (comprehension_ok label_of data) as [ls Hls].
  { eapply Forall_impl; [done|]. intros d [l Hl].
    exists l. unfold label_of, getitem. by rewrite Hl. }
  destruct (comprehension_ok perturbed_label_of data) as [ps Hps].
  { eapply Forall_impl; [done|]. intros d [l Hl].
    eexists. unfold perturbed_label_of, getitem. by rewrite Hl. }
  eauto.
Qed.

Lemma texts_built (data : list example) :
  Forall (λ d, is_Some (d !! "text")) data → ∃ ts, texts_of data = Ok ts.
Proof.
  intros Hdata. apply comprehension_ok.
  eapply Forall_impl; [done|]. intros d [l Hl].
  exists l. unfold text_of, getitem. by rewrite Hl.
Qed.

(** The list of texts holds, position by position, the text of each
    example. *)
Lemma texts_lookup (data : list example) (ts : list value) (i : nat)
    (d : example) :
  texts_of data = Ok ts → data !! i = Some d →
  is_Some (d !! "text") ∧ ts !! i = d !! "text".
Proof.
  intros Hts Hd.
  destruct (comprehension_lookup _ _ _ _ _ Hts Hd) as (t & Ht & Hti).
  unfold text_of, getitem in Ht. destruct (d !! "text") as [t'|]; [|done].
  injection Ht as ->. by split; [eexists|].
Qed.

Lemma labels_length (data : list example) (ls ps : list value) :
  original_labels data = Ok ls → perturbed_labels data = Ok ps →
  length ls = length data ∧ length ps = length data.
Proof. intros Hls Hps. split; by eapply comprehension_length. Qed.

Lemma unperturbed_labels (data : list example) :
  Forall unperturbed data → perturbed_labels data = original_labels data.
Proof.
  intros Hdata. apply comprehension_ext.
  eapply Forall_impl; [done|]. intros d Hd.
  unfold perturbed_label_of, label_of, getitem, dict_get.
  destruct (d !! "label") as [l|] eqn:Hl; [|done].
  destruct (d !! "perturbed_label") as [p|] eqn:Hp; [|done].
  apply Hd in Hp. congruence.
Qed.

Lemma comprehension_raise {A B} (f : A → res B) (l : list A) (e : exn) :
  comprehension f l = Raise e → ∃ d, d ∈ l ∧ f d = Raise e.
Proof.
  induction l as [|d l IH]; [done|]. cbn [comprehension].
  destruct (f d) as [b|e'] eqn:Hd.
  - destruct (comprehension f l) as [bs|e']; [done|].
    intros [= ->]. destruct IH as (d' & Hin & Hd'); [done|].
    exists d'. split; [by apply list_elem_of_further|done].
  - intros [= ->]. exists d. split; [by apply list_elem_of_here|done].
Qed.

Lemma getitem_raise {V} (d : gmap string V) (k : string) (e : exn) :
  getitem d k = Raise e → e = KeyError k ∧ d !! k = None.
Proof. unfold getitem. destruct (d !! k); [done|]. by intros [= <-]. Qed.

Lemma examples_of_raise (v : rvalue) (e : exn) :
  examples_of v = Raise e → e = TypeError.
Proof. destruct v as [|[|]|]; cbn; congruence. Qed.

Lemma original_labels_raise (data : list example) (e : exn) :
  original_labels data = Raise e → e = KeyError "label".
Proof.
  intros (d & _ & Hd)%comprehension_raise.
  by apply getitem_raise in Hd as [-> _].
Qed.

Lemma perturbed_labels_raise (data : list example) (e : exn) :
  perturbed_labels data = Raise e → e = KeyError "label".
Proof.
  intros (d & _ & Hd)%comprehension_raise. unfold perturbed_label_of in Hd.
  destruct (getitem d "label") as [l|e'] eqn:Hl; [done|].
  injection Hd as ->. by apply getitem_raise in Hl as [-> _].
Qed.

Lemma texts_of_raise (data : list example) (e : exn) :
  texts_of data = Raise e → e = KeyError "text".
Proof.
  intros (d & _ & Hd)%comprehension_raise.
  by apply getitem_raise in Hd as [-> _].
Qed.

(** ** The record *)

Lemma final_results_dom args ab aa asr lb la r :
  final_results_of args ab aa asr lb la = Ok r → dom r = record_keys.
Proof.
  unfold final_results_of.
  destruct (py_sub ab aa ≫= py_round2) as [drop|]; [|done].
  destruct (py_sub la lb ≫= py_round2) as [increase|]; [|done].
  intros [= <-]. unfold record_keys.
  cbn [list_to_map foldr uncurry fst snd].
  rewrite !dom_insert_L, dom_empty_L. set_solver.
Qed.

Lemma final_results_lookup args (ab aa asr lb la : double) r :
  final_results_of args (FFloat ab) (FFloat aa) (FFloat asr)
                   (FFloat lb) (FFloat la) = Ok r →
  r !! "model" = Some (FStr (arg_model args)) ∧
  r !! "quantization" = Some (field_of_option (arg_quantization args)) ∧
  r !! "attack" = Some (FStr (arg_attack args)) ∧
  r !! "accuracy_before" = Some (FFloat ab) ∧
  r !! "accuracy_after" = Some (FFloat aa) ∧
  r !! "accuracy_drop" = Some (FFloat (round2 (fsub ab aa))) ∧
  r !! "attack_success_rate" = Some (FFloat asr) ∧
  r !! "latency_before_ms" = Some (FFloat lb) ∧
  r !! "latency_after_ms" = Some (FFloat la) ∧
  r !! "latency_increase_ms" = Some (FFloat (round2 (fsub la lb))).
Proof. intros [= <-]. repeat split; reflexivity. Qed.

Lemma final_results_of_floats args (ab aa asr lb la : double) :
  ∃ r, final_results_of args (FFloat ab) (FFloat aa) (FFloat asr)
                        (FFloat lb) (FFloat la) = Ok r.
Proof. by eexists. Qed.

(** ** Runs with the collaborators of the spec *)

Section Runs.

Context {Handle Experiment World : Type}.
Variable ExperimentBuilder :
  string → string → string → option string → World → Experiment * World.
Variable run_experiment :
  Experiment → World → gmap string rvalue * Experiment * World.
Variable experiment_model : Experiment → Handle.
Variable experiment_tokenizer : Experiment → Handle.
Variable measure_latency :
  Handle → list value → Handle → World → double * World.

#[local] Abbreviation main' :=
  (main ExperimentBuilder run_experiment experiment_model
        experiment_tokenizer specified_accuracy specified_asr
        (float_probe measure_latency)).
#[local] Abbreviation run_of' := (run_of ExperimentBuilder run_experiment).

Lemma main_failure_run args (s : state Handle World) results e w status :
  run_of' args (world s) = (results, e, w) →
  results !! "status" = Some status →
  status ≠ RStr "success" →
  main' args s =
    (Ok (), mkState w (trace s ++ opening args
                         ++ [EvLogError "Experiment failed. Exiting."])).
Proof.
  intros Hrun Hstatus Hne. unfold run_of in Hrun. step_main.
  destruct (ExperimentBuilder _ _ _ _ _) as [e0 w1]. cbn [world trace].
  rewrite Hrun. unfold getitem. rewrite Hstatus.
  rewrite decide_True by done. cbn [world trace].
  by rewrite <- !app_assoc.
Qed.

Lemma main_success_run args (s : state Handle World) results e w data
    ls ps ts ab aa asr r :
  run_of' args (world s) = (results, e, w) →
  results !! "status" = Some (RStr "success") →
  results !! "adversarial_data" = Some (RList data) →
  original_labels data = Ok ls →
  perturbed_labels data = Ok ps →
  texts_of data = Ok ts →
  calculate_accuracy ls ls = Ok ab →
  calculate_accuracy ls ps = Ok aa →
  calculate_asr ls ps = Ok asr →
  let m := experiment_model e in
  let t := experiment_tokenizer e in
  let before := measure_latency m ts t w in
  let after := measure_latency m ts t before.2 in
  final_results_of args (FFloat ab) (FFloat aa) (FFloat asr)
                   (FFloat before.1) (FFloat after.1) = Ok r →
  main' args s =
    (Ok (), mkState after.2
       (trace s ++ opening args ++
        [ EvAccuracy ls ls; EvAccuracy ls ps; EvAsr ls ps;
          EvLatency m ts t; EvLatency m ts t;
          EvLogInfo (MsgResults r); EvSaveJson r; EvSaveCsv [r];
          EvLogInfo (MsgText "Experiment completed successfully!") ])).
Proof.
  intros Hrun Hstatus Hdata Hls Hps Hts Hab Haa Hasr m t before after Hr.
  unfold run_of in Hrun. step_main.
  destruct (ExperimentBuilder _ _ _ _ _) as [e0 w1]. cbn [world trace].
  rewrite Hrun. unfold getitem. rewrite Hstatus.
  rewrite decide_False by naive_solver.
  rewrite Hdata. cbn [examples_of]. rewrite Hls, Hps. cbn [world trace].
  step_specified. rewrite Hab, Haa, Hasr, Hts.
  cbn [float_result world trace fst snd].
  subst after before m t. rewrite Hr. cbn [world trace].
  by rewrite <- !app_assoc.
Qed.

(** A successful run over well-formed examples goes all the way: the label
    and text lists are built, the three metrics are defined, and [main]
    ends after logging and saving one record. *)
Lemma main_success args (s : state Handle World) results e w data :
  run_of' args (world s) = (results, e, w) →
  succeeded results data →
  Forall well_formed data →
  ∃ ls ps ts ab aa asr r,
    original_labels data = Ok ls ∧
    perturbed_labels data = Ok ps ∧
    texts_of data = Ok ts ∧
    calculate_accuracy ls ls = Ok ab ∧
    calculate_accuracy ls ps = Ok aa ∧
    calculate_asr ls ps = Ok asr ∧
    let m := experiment_model e in
    let t := experiment_tokenizer e in
    let before := measure_latency m ts t w in
    let after := measure_latency m ts t before.2 in
    final_results_of args (FFloat ab) (FFloat aa) (FFloat asr)
                     (FFloat before.1) (FFloat after.1) = Ok r ∧
    main' args s =
      (Ok (), mkState after.2
         (trace s ++ opening args ++
          [ EvAccuracy ls ls; EvAccuracy ls ps; EvAsr ls ps;
            EvLatency m ts t; EvLatency m ts t;
            EvLogInfo (MsgResults r); EvSaveJson r; EvSaveCsv [r];
            EvLogInfo (MsgText "Experiment completed successfully!") ])).
Proof.
  intros Hrun [Hstatus Hdata] Hwf.
  destruct (labels_built data) as (ls & ps & Hls & Hps).
  { eapply Forall_impl; [done|]. by intros d [? _]. }
  destruct (texts_built data) as [ts Hts].
  { eapply Forall_impl; [done|]. by intros d [_ ?]. }
  destruct (labels_length data ls ps Hls Hps) as [Hlen_ls Hlen_ps].
  destruct (calculate_accuracy_ok ls ls) as [ab Hab]; [done|].
  destruct (calculate_accuracy_ok ls ps) as [aa Haa]; [congruence|].
  destruct (calculate_asr_ok ls ps) as [asr Hasr]; [congruence|].
  exists ls, ps, ts, ab, aa, asr. eexists.
  do 6 (split; [done|]). cbv zeta. split; [reflexivity|].
  by eapply main_success_run.
Qed.

(** Whatever the collaborators do, [main] does not end in a MetricError:
    the two label lists it hands to the metrics have the same length. *)
Lemma main_no_metric_error args (s : state Handle World) :
  (main' args s).1 ≠ Raise MetricError.
Proof.
  step_main.
  destruct (ExperimentBuilder _ _ _ _ _) as [e0 w1]. cbn [world trace].
  destruct (run_experiment e0 w1) as [[results e] w]. cbn [world trace].
  unfold getitem at 1. destruct (results !! "status") as [status|]; [|done].
  destruct (decide (status ≠ RStr "success")); [done|].
  unfold getitem at 1.
  destruct (results !! "adversarial_data") as [v|]; [|done].
  destruct (examples_of v) as [data|x] eqn:Hv.
  2:{ apply examples_of_raise in Hv as ->. done. }
  destruct (original_labels data) as [ls|x] eqn:Hls.
  2:{ apply original_labels_raise in Hls as ->. done. }
  destruct (perturbed_labels data) as [ps|x] eqn:Hps.
  2:{ apply perturbed_labels_raise in Hps as ->. done. }
  destruct (labels_length data ls ps Hls Hps) as [Hlen_ls Hlen_ps].
  step_specified.
  destruct (calculate_accuracy_ok ls ls) as [ab ->]; [done|].
  destruct (calculate_accuracy_ok ls ps) as [aa ->]; [congruence|].
  destruct (calculate_asr_ok ls ps) as [asr ->]; [congruence|].
  cbn [float_result world trace].
  destruct (texts_of data) as [ts|x] eqn:Hts.
  2:{ apply texts_of_raise in Hts as ->. done. }
  cbn [world trace fst snd]. step_record. done.
Qed.

Lemma comprehension_ok_inv {A B} (f : A → res B) (l : list A) (bs : list B) :
  comprehension f l = Ok bs → Forall (λ d, ∃ b, f d = Ok b) l.
Proof.
  intros Hbs. apply Forall_lookup. intros i d Hd.
  destruct (comprehension_lookup f l bs i d Hbs Hd) as (b & Hb & _). eauto.
Qed.

Lemma getitem_ok {V} (d : gmap string V) (k : string) (v : V) :
  getitem d k = Ok v → d !! k = Some v.
Proof. unfold getitem. destruct (d !! k); [|done]. by intros [= <-]. Qed.

Lemma well_formed_of_built (data : list example) (ls ts : list value) :
  original_labels data = Ok ls → texts_of data = Ok ts →
  Forall well_formed data.
Proof.
  intros Hls%comprehension_ok_inv Hts%comprehension_ok_inv.
  apply Forall_and. split.
  - eapply Forall_impl; [exact Hls|]. intros d [l Hl]. exists l.
    by apply getitem_ok.
  - eapply Forall_impl; [exact Hts|]. intros d [t Ht]. exists t.
    by apply getitem_ok.
Qed.

(** A run that reports success over examples that are not all well formed
    ends in a KeyError, and nothing has been saved by then. *)
Lemma main_malformed_run args (s : state Handle World) results e w data :
  run_of' args (world s) = (results, e, w) →
  succeeded results data →
  ¬ Forall well_formed data →
  ∃ k s',
    main' args s = (Raise (KeyError k), s') ∧
    (k = "label" ∨ k = "text") ∧
    saved_json (trace s') = saved_json (trace s) ∧
    saved_csv (trace s') = saved_csv (trace s).
Proof.
  intros Hrun [Hstatus Hdata] Hbad. unfold run_of in Hrun. step_main.
  destruct (ExperimentBuilder _ _ _ _ _) as [e0 w1]. cbn [world trace].
  rewrite Hrun. unfold getitem at 1. rewrite Hstatus.
  rewrite decide_False by naive_solver.
  unfold getitem at 1. rewrite Hdata. cbn [examples_of].
  destruct (original_labels data) as [ls|x] eqn:Hls.
  2:{ apply original_labels_raise in Hls as ->.
      eexists _, _. split; [done|]. split; [by left|].
      cbn [trace]. split; by read_trace. }
  destruct (perturbed_labels data) as [ps|x] eqn:Hps.
  2:{ apply perturbed_labels_raise in Hps as ->.
      eexists _, _. split; [done|]. split; [by left|].
      cbn [trace]. split; by read_trace. }
  destruct (labels_length data ls ps Hls Hps) as [Hlen_ls Hlen_ps].
  step_specified.
  destruct (calculate_accuracy_ok ls ls) as [ab ->]; [done|].
  destruct (calculate_accuracy_ok ls ps) as [aa ->]; [congruence|].
  destruct (calculate_asr_ok ls ps) as [asr ->]; [congruence|].
  cbn [float_result world trace].
  destruct (texts_of data) as [ts|x] eqn:Hts.
  { destruct Hbad. by eapply well_formed_of_built. }
  apply texts_of_raise in Hts as ->.
  eexists _, _. split; [done|]. split; [by right|].
  cbn [trace]. split; by read_trace.
Qed.

End Runs.

(** ** The claims about [main] *)

Section Claims.

Context {Handle Experiment World : Type}.
Variable ExperimentBuilder :
  string → string → string → option string → World → Experiment * World.
Variable run_experiment :
  Experiment → World → gmap string rvalue * Experiment * World.
Variable experiment_model : Experiment → Handle.
Variable experiment_tokenizer : Experiment → Handle.
Variable measure_latency :
  Handle → list value → Handle → World → double * World.

#[local] Abbreviation main' :=
  (main ExperimentBuilder run_experiment experiment_model
        experiment_tokenizer specified_accuracy specified_asr
        (float_probe measure_latency)).
#[local] Abbreviation run_of' := (run_of ExperimentBuilder run_experiment).

(** C1. When the status of the result is anything but ["success"], [main]
    returns normally after five events: logger setup, the opening log
    line, the construction and the run of the experiment, and the error
    line. No metric is computed and nothing is saved. The outcome is the
    same whatever the result holds under ["adversarial_data"], and also
    when it holds nothing there: that entry is not read. *)
Theorem failure_exits_before_metrics args (s : state Handle World)
    results e w status :
  run_of' args (world s) = (results, e, w) →
  results !! "status" = Some status →
  status ≠ RStr "success" →
  ∃ s',
    main' args s = (Ok (), s') ∧
    world s' = w ∧
    trace s' = trace s ++
      [ EvSetupLogger;
        EvLogInfo (MsgText ("Running experiment: " +:+ arg_attack args
                            +:+ " on " +:+ arg_model args +:+ " with "
                            +:+ quantization_or_default (arg_quantization args)));
        EvBuild (arg_model args) (arg_dataset args) (arg_attack args)
                (arg_quantization args);
        EvRunExperiment;
        EvLogError "Experiment failed. Exiting." ] ∧
    accuracy_calls (trace s') = accuracy_calls (trace s) ∧
    asr_calls (trace s') = asr_calls (trace s) ∧
    latency_calls (trace s') = latency_calls (trace s) ∧
    saved_json (trace s') = saved_json (trace s) ∧
    saved_csv (trace s') = saved_csv (trace s) ∧
    ∀ v, main ExperimentBuilder (with_adversarial_data v run_experiment)
              experiment_model experiment_tokenizer specified_accuracy
              specified_asr (float_probe measure_latency) args s
         = (Ok (), s').
Proof.
  intros Hrun Hstatus Hne. eexists. split; [|split; [|split]].
  - by eapply main_failure_run.
  - done.
  - done.
  - cbn [trace]. repeat split; try by read_trace.
    intros v. eapply main_failure_run; [| |exact Hne].
    + unfold run_of, with_adversarial_data in *.
      destruct (ExperimentBuilder _ _ _ _ _) as [e0 w1]. by rewrite Hrun.
    + by rewrite lookup_partial_alter_ne.
Qed.

(** C2, as the code has it. In a successful run the first accuracy call
    compares the original labels with themselves, its value is stored
    unchanged under ["accuracy_before"], and that value is 1 when
    [adversarial_data] has an example and 0 when it has none. *)
Theorem accuracy_before_is_self_comparison args (s : state Handle World)
    results e w data :
  run_of' args (world s) = (results, e, w) →
  succeeded results data →
  Forall well_formed data →
  ∃ s' r ls ps ab,
    main' args s = (Ok (), s') ∧
    original_labels data = Ok ls ∧
    accuracy_calls (trace s') = accuracy_calls (trace s) ++ [(ls, ls); (ls, ps)] ∧
    saved_json (trace s') = saved_json (trace s) ++ [r] ∧
    calculate_accuracy ls ls = Ok ab ∧
    r !! "accuracy_before" = Some (FFloat ab) ∧
    ab = (if decide (data = []) then Finite 0 else Finite 1).
Proof.
  intros Hrun Hok Hwf.
  destruct (main_success _ _ experiment_model experiment_tokenizer
              measure_latency _ _ _ _ _ _ Hrun Hok Hwf)
    as (ls & ps & ts & ab & aa & asr & r & Hls & Hps & Hts & Hab & Haa & Hasr
        & Hr & Hmain).
  cbv zeta in Hr, Hmain. read_record Hr.
  eexists _, _, ls, ps, ab. split; [exact Hmain|].
  cbn [trace]. repeat split; try done; try by read_trace.
  rewrite calculate_accuracy_self in Hab. injection Hab as <-.
  apply comprehension_length in Hls.
  destruct data; destruct ls; by simplify_eq/=.
Qed.

(** C4. In a successful run [measure_latency] is called exactly twice, both
    times with the model of the experiment, the texts of
    [adversarial_data] and the tokenizer of the experiment. The texts are
    one list, as long as [adversarial_data], holding at each position what
    the example at that position has under ["text"]. The first reading is
    stored under ["latency_before_ms"], the second under
    ["latency_after_ms"]. *)
Theorem latency_measured_twice_on_same_batch args (s : state Handle World)
    results e w data :
  run_of' args (world s) = (results, e, w) →
  succeeded results data →
  Forall well_formed data →
  ∃ s' r ts,
    main' args s = (Ok (), s') ∧
    texts_of data = Ok ts ∧
    length ts = length data ∧
    (∀ i d, data !! i = Some d → is_Some (d !! "text") ∧ ts !! i = d !! "text") ∧
    let m := experiment_model e in
    let t := experiment_tokenizer e in
    let before := measure_latency m ts t w in
    let after := measure_latency m ts t before.2 in
    latency_calls (trace s') = latency_calls (trace s) ++ [(m, ts, t); (m, ts, t)] ∧
    world s' = after.2 ∧
    saved_json (trace s') = saved_json (trace s) ++ [r] ∧
    r !! "latency_before_ms" = Some (FFloat before.1) ∧
    r !! "latency_after_ms" = Some (FFloat after.1).
Proof.
  intros Hrun Hok Hwf.
  destruct (main_success _ _ experiment_model experiment_tokenizer
              measure_latency _ _ _ _ _ _ Hrun Hok Hwf)
    as (ls & ps & ts & ab & aa & asr & r & Hls & Hps & Hts & Hab & Haa & Hasr
        & Hr & Hmain).
  cbv zeta in Hr, Hmain. read_record Hr.
  eexists _, _, ts. split; [exact Hmain|]. split; [exact Hts|].
  split; [by eapply comprehension_length|]. split.
  { intros i d Hd. by apply (texts_lookup data ts). }
  cbn [trace world]. repeat split; try done; by read_trace.
Qed.

(** C5. In a successful run one record is handed to the JSON writer and the
    same record, alone in a list, to the CSV writer. Its keys are exactly
    the ten of [record_keys], and its model, quantization and attack are
    those of the command line. *)
Theorem persisted_record_has_ten_fields args (s : state Handle World)
    results e w data :
  run_of' args (world s) = (results, e, w) →
  succeeded results data →
  Forall well_formed data →
  ∃ s' r,
    main' args s = (Ok (), s') ∧
    saved_json (trace s') = saved_json (trace s) ++ [r] ∧
    saved_csv (trace s') = saved_csv (trace s) ++ [[r]] ∧
    dom r = record_keys ∧
    size r = 10 ∧
    r !! "model" = Some (FStr (arg_model args)) ∧
    r !! "quantization" = Some (field_of_option (arg_quantization args)) ∧
    r !! "attack" = Some (FStr (arg_attack args)).
Proof.
  intros Hrun Hok Hwf.
  destruct (main_success _ _ experiment_model experiment_tokenizer
              measure_latency _ _ _ _ _ _ Hrun Hok Hwf)
    as (ls & ps & ts & ab & aa & asr & r & Hls & Hps & Hts & Hab & Haa & Hasr
        & Hr & Hmain).
  cbv zeta in Hr, Hmain.
  pose proof (final_results_dom _ _ _ _ _ _ _ Hr) as Hdom. read_record Hr.
  eexists _, _. split; [exact Hmain|].
  cbn [trace world]. repeat split; try done; try by read_trace.
Qed.

(** C6. In a successful run the five measured fields hold what the metric
    routines and the latency probe returned, as returned, while
    ["accuracy_drop"] holds [round(accuracy_before - accuracy_after, 2)]
    and ["latency_increase_ms"] holds
    [round(latency_after - latency_before, 2)], with [-] and [round] those
    of Python floats. The two accuracies are finite floats and their
    difference is the double nearest to the exact difference; so is the
    difference of the two latencies when they are finite. Each of the two
    stored values is the difference rounded to two decimal places: the
    double nearest to the whole number of hundredths nearest to it. *)
Theorem derived_fields_are_rounded args (s : state Handle World)
    results e w data :
  run_of' args (world s) = (results, e, w) →
  succeeded results data →
  Forall well_formed data →
  ∃ s' r ls ps ts ab aa asr lb la,
    main' args s = (Ok (), s') ∧
    saved_json (trace s') = saved_json (trace s) ++ [r] ∧
    original_labels data = Ok ls ∧
    perturbed_labels data = Ok ps ∧
    texts_of data = Ok ts ∧
    calculate_accuracy ls ls = Ok ab ∧
    calculate_accuracy ls ps = Ok aa ∧
    calculate_asr ls ps = Ok asr ∧
    (measure_latency (experiment_model e) ts (experiment_tokenizer e) w).1
      = lb ∧
    (measure_latency (experiment_model e) ts (experiment_tokenizer e)
       (measure_latency (experiment_model e) ts (experiment_tokenizer e) w).2).1
      = la ∧
    r !! "accuracy_before" = Some (FFloat ab) ∧
    r !! "accuracy_after" = Some (FFloat aa) ∧
    r !! "attack_success_rate" = Some (FFloat asr) ∧
    r !! "latency_before_ms" = Some (FFloat lb) ∧
    r !! "latency_after_ms" = Some (FFloat la) ∧
    r !! "accuracy_drop" = Some (FFloat (round2 (fsub ab aa))) ∧
    r !! "latency_increase_ms" = Some (FFloat (round2 (fsub la lb))) ∧
    (∃ qb qa : Qc,
       ab = Finite qb ∧ aa = Finite qa ∧
       nearest_double (qb - qa) (fsub ab aa)) ∧
    is_difference la lb (fsub la lb) ∧
    rounded_to_2_places (fsub ab aa) (round2 (fsub ab aa)) ∧
    rounded_to_2_places (fsub la lb) (round2 (fsub la lb)).
Proof.
  intros Hrun Hok Hwf.
  destruct (main_success _ _ experiment_model experiment_tokenizer
              measure_latency _ _ _ _ _ _ Hrun Hok Hwf)
    as (ls & ps & ts & ab & aa & asr & r & Hls & Hps & Hts & Hab & Haa & Hasr
        & Hr & Hmain).
  cbv zeta in Hr, Hmain. read_record Hr.
  eexists _, _, ls, ps, ts, ab, aa, asr, _, _. split; [exact Hmain|].
  cbn [trace world].
  do 16 (split; [first [done | by read_trace]|]).
  split; [|split; [apply fsub_nearest|split; apply round2_rounds]].
  destruct (calculate_accuracy_finite _ _ _ Hab) as [qb ->].
  destruct (calculate_accuracy_finite _ _ _ Haa) as [qa ->].
  exists qb, qa. do 2 (split; [done|]). by apply fsub_nearest.
Qed.

(** C8. In a successful run where no example has a perturbed label other
    than its own label, the record holds 0 under ["attack_success_rate"]
    and 0 under ["accuracy_drop"]. *)
Theorem noop_attack_changes_nothing args (s : state Handle World)
    results e w data :
  run_of' args (world s) = (results, e, w) →
  succeeded results data →
  Forall well_formed data →
  Forall unperturbed data →
  ∃ s' r,
    main' args s = (Ok (), s') ∧
    saved_json (trace s') = saved_json (trace s) ++ [r] ∧
    r !! "attack_success_rate" = Some (FFloat (Finite 0)) ∧
    r !! "accuracy_drop" = Some (FFloat (Finite 0)).
Proof.
  intros Hrun Hok Hwf Hnoop.
  destruct (main_success _ _ experiment_model experiment_tokenizer
              measure_latency _ _ _ _ _ _ Hrun Hok Hwf)
    as (ls & ps & ts & ab & aa & asr & r & Hls & Hps & Hts & Hab & Haa & Hasr
        & Hr & Hmain).
  cbv zeta in Hr, Hmain.
  destruct (final_results_lookup _ _ _ _ _ _ _ Hr)
    as (_ & _ & _ & _ & _ & Hdrop & Hrate & _).
  rewrite (unperturbed_labels data Hnoop), Hls in Hps. injection Hps as <-.
  rewrite Hab in Haa. injection Haa as <-.
  rewrite calculate_asr_self in Hasr. injection Hasr as <-.
  eexists _, r. split; [exact Hmain|].
  cbn [trace world]. split; [by read_trace|]. split; [exact Hrate|].
  rewrite Hdrop. do 2 f_equal.
  rewrite calculate_accuracy_self in Hab. injection Hab as <-.
  destruct (decide (length ls = 0)); by rewrite fsub_self.
Qed.

(** C10. When every example has a label, the two label lists are built,
    both as long as [adversarial_data] and in its order: position [i]
    holds the label of example [i], respectively its perturbed label or,
    failing that, its label; and all three metric calls of [main] on them
    are defined. Whatever the run, [main] never ends in a MetricError. *)
Theorem label_lists_are_aligned args (s : state Handle World)
    (data : list example) :
  (Forall (λ d, is_Some (d !! "label")) data →
   ∃ ls ps,
     original_labels data = Ok ls ∧
     perturbed_labels data = Ok ps ∧
     length ls = length data ∧
     length ps = length data ∧
     (∀ i d, data !! i = Some d →
        ∃ l, d !! "label" = Some l ∧ ls !! i = Some l ∧
             ps !! i = Some (dict_get d "perturbed_label" l)) ∧
     (∃ ab aa asr,
        calculate_accuracy ls ls = Ok ab ∧
        calculate_accuracy ls ps = Ok aa ∧
        calculate_asr ls ps = Ok asr)) ∧
  (main' args s).1 ≠ Raise MetricError.
Proof.
  split; [|apply main_no_metric_error].
  intros Hlabels.
  destruct (labels_built data Hlabels) as (ls & ps & Hls & Hps).
  destruct (labels_length data ls ps Hls Hps) as [Hlen_ls Hlen_ps].
  exists ls, ps. repeat (split; [done|]). split.
  - intros i d Hd.
    destruct (comprehension_lookup _ _ _ _ _ Hls Hd) as (l & Hl & Hli).
    destruct (comprehension_lookup _ _ _ _ _ Hps Hd) as (p & Hp & Hpi).
    unfold label_of, perturbed_label_of, getitem in Hl, Hp.
    destruct (d !! "label") as [l'|]; [|done].
    injection Hl as ->. injection Hp as <-. eauto.
  - destruct (calculate_accuracy_ok ls ls) as [ab Hab]; [done|].
    destruct (calculate_accuracy_ok ls ps) as [aa Haa]; [congruence|].
    destruct (calculate_asr_ok ls ps) as [asr Hasr]; [congruence|].
    eauto 10.
Qed.

(** [main] does not look at [--num_samples]. *)
Lemma main_ignores_num_samples args (n : Z) (s : state Handle World) :
  main' (with_num_samples n args) s = main' args s.
Proof. reflexivity. Qed.

End Claims.

(** ** The claims about the metrics and the label lists *)

Lemma count_matches_le (r p : list value) :
  length r = length p → count_matches r p ≤ length r.
Proof.
  intros Hlen. pose proof (count_split r p) as Hsplit.
  rewrite length_label_pairs in Hsplit by done. lia.
Qed.

Lemma count_flips_le (r p : list value) :
  length r = length p → count_flips r p ≤ length r.
Proof.
  intros Hlen. pose proof (count_split r p) as Hsplit.
  rewrite length_label_pairs in Hsplit by done. lia.
Qed.

(** C7, as the metrics have it. On label lists of one length both metrics
    are defined and are floats between 0 and 1. On empty lists both are
    0.0. On non-empty lists the accuracy is the number of positional
    matches divided by the length and the success rate the number of
    positions that differ divided by the length, each the double nearest
    to the exact quotient; the two counts add up to the length, so that
    the accuracy and 1 minus the success rate, both taken exactly, differ
    by no more than 2^-52, without having to be equal. *)
Theorem accuracy_complements_asr (R P : list value) :
  length R = length P →
  ∃ (a f : double) (qa qf : Qc),
    calculate_accuracy R P = Ok a ∧
    calculate_asr R P = Ok f ∧
    a = Finite qa ∧ f = Finite qf ∧
    (0 ≤ qa)%Qc ∧ (qa ≤ 1)%Qc ∧ (0 ≤ qf)%Qc ∧ (qf ≤ 1)%Qc ∧
    (R = [] → qa = 0%Qc ∧ qf = 0%Qc) ∧
    (R ≠ [] →
       a = true_divide (count_matches R P) (length R) ∧
       f = true_divide (count_flips R P) (length R) ∧
       nearest_double
         (Qc_of_nat (count_matches R P) / Qc_of_nat (length R))%Qc a ∧
       nearest_double
         (Qc_of_nat (count_flips R P) / Qc_of_nat (length R))%Qc f ∧
       count_matches R P + count_flips R P = length R ∧
       ((1 - qf) - (1 # 2 ^ 52) <= qa)%Q ∧
       (qa <= (1 - qf) + (1 # 2 ^ 52))%Q).
Proof.
  intros Hlen. unfold calculate_accuracy, calculate_asr.
  destruct (decide (length R = length P)) as [_|]; [|done].
  destruct (decide (length R = 0)) as [Hz|Hnz].
  - exists (Finite 0), (Finite 0), 0%Qc, 0%Qc.
    do 4 (split; [done|]). do 4 (split; [by compute|]). split; [done|].
    intros HR. by destruct R.
  - pose proof (count_split R P) as Hsplit.
    rewrite length_label_pairs in Hsplit by done.
    destruct (true_divide_unit (count_matches R P) (length R))
      as (qa & Ha & Ha0 & Ha1 & Halo & Hahi); [done|lia|].
    destruct (true_divide_unit (count_flips R P) (length R))
      as (qf & Hf & Hf0 & Hf1 & Hflo & Hfhi); [done|lia|].
    exists (true_divide (count_matches R P) (length R)),
           (true_divide (count_flips R P) (length R)), qa, qf.
    do 2 (split; [done|]). split; [exact Ha|]. split; [exact Hf|].
    do 4 (split; [done|]). split; [by intros ->|].
    intros _. do 2 (split; [done|]).
    do 2 (split; [apply round_to_double_nearest|]). split; [done|].
    pose proof (quotient_complement _ _ _ Hnz Hsplit) as Hc.
    assert (HQ : ((Qc_of_nat (count_matches R P) / Qc_of_nat (length R))%Qc
                  == 1 - (Qc_of_nat (count_flips R P)
                          / Qc_of_nat (length R))%Qc)%Q).
    { rewrite Hc. unfold Qcminus, Qcplus, Qcopp. cbn [this Q2Qc].
      rewrite !Qred_correct. ring. }
    assert (Hh : ((1 # 2 ^ 52) == (1 # 2 ^ 53) + (1 # 2 ^ 53))%Q)
      by reflexivity.
    revert Halo Hahi Hflo Hfhi HQ Hh.
    generalize (this (Qc_of_nat (count_matches R P)
                      / Qc_of_nat (length R))%Qc)
               (this (Qc_of_nat (count_flips R P)
                      / Qc_of_nat (length R))%Qc)
               (1 # 2 ^ 52)%Q (1 # 2 ^ 53)%Q.
    intros x y h2 h Halo Hahi Hflo Hfhi HQ Hh. split; lra.
Qed.



(** ** Runs in the scripted environment *)

(** C3. With [--num_samples 1] and an experiment that comes back with two
    examples, [main] evaluates both: the metrics and the latency probe are
    called on lists of two. *)
Theorem num_samples_does_not_bound_examples :
  let args := Stub.args 1 in
  let data := Stub.untouched in
  let out := Stub.entry (Stub.success data) args Stub.start in
  arg_num_samples args = 1%Z ∧
  out.1 = Ok () ∧
  accuracy_calls (trace out.2) =
    [ ([VInt 1; VInt 0], [VInt 1; VInt 0]);
      ([VInt 1; VInt 0], [VInt 1; VInt 0]) ] ∧
  latency_calls (trace out.2) =
    [ (1, [VStr "a fine film"; VStr "a dull film"], 2);
      (1, [VStr "a fine film"; VStr "a dull film"], 2) ] ∧
  (arg_num_samples args < Z.of_nat (length data))%Z.
Proof. cbv zeta. repeat split; by vm_compute. Qed.

(** C2, the empty run. A successful run over no examples stores 0, not 1,
    under ["accuracy_before"]. *)
Lemma accuracy_before_of_empty_run_is_zero :
  let out := Stub.entry (Stub.success []) (Stub.args 50) Stub.start in
  out.1 = Ok () ∧
  (λ r : record, r !! "accuracy_before") <$> saved_json (trace out.2)
    = [Some (FFloat (Finite 0))] ∧
  FFloat (Finite 0) ≠ FFloat (Finite 1).
Proof. cbv zeta. repeat split; by vm_compute. Qed.

(** C7, where the complement fails. On empty lists the accuracy is 0.0
    and so is the success rate, not 1.0. On [0, 0, 0] against [0, 1, 1] the
    accuracy is the double nearest to 1/3 and the success rate the double
    nearest to 2/3, and 1 minus the latter is another double than the
    former, whether the subtraction is the one of floats or exact. *)
Lemma complement_fails_on_empty_lists_and_on_thirds :
  (calculate_accuracy [] [] = Ok (Finite 0) ∧
   calculate_asr [] [] = Ok (Finite 0) ∧
   fsub (Finite 1) (Finite 0) ≠ Finite 0) ∧
  (let R := [VInt 0; VInt 0; VInt 0] in
   let P := [VInt 0; VInt 1; VInt 1] in
   let a := true_divide 1 3 in
   let f := true_divide 2 3 in
   calculate_accuracy R P = Ok a ∧
   calculate_asr R P = Ok f ∧
   value_of a = Some (6004799503160661 # 18014398509481984)%Q ∧
   value_of f = Some (6004799503160661 # 9007199254740992)%Q ∧
   value_of (fsub (Finite 1) f)
     = Some (3002399751580331 # 9007199254740992)%Q ∧
   fsub (Finite 1) f ≠ a ∧
   ¬ ((6004799503160661 # 18014398509481984)
      == 1 - (6004799503160661 # 9007199254740992))%Q).
Proof.
  cbv zeta. split; [repeat split; by vm_compute|].
  split; [reflexivity|]. split; [reflexivity|].
  split; [by vm_compute|]. split; [by vm_compute|]. split; [by vm_compute|].
  split; [by vm_compute|]. by vm_compute.
Qed.

Lemma failure_exits_before_metrics_witness :
  ∃ s',
    Stub.entry (Stub.failure "model load failed") (Stub.args 50) Stub.start
      = (Ok (), s') ∧
    length (trace s') = 5 ∧
    saved_json (trace s') = [] ∧
    saved_csv (trace s') = [].
Proof.
  destruct (failure_exits_before_metrics
              (Stub.builder (Stub.failure "model load failed"))
              Stub.run Stub.model Stub.tokenizer Stub.latency
              (Stub.args 50) Stub.start
              (Stub.failure "model load failed")
              (Stub.failure "model load failed") Stub.clock (RStr "failure"))
    as (s' & Hmain & _ & Htrace & _ & _ & _ & Hjson & Hcsv & _).
  - stub_run.
  - reflexivity.
  - discriminate.
  - exists s'. split; [exact Hmain|]. split; [by rewrite Htrace|]. done.
Defined.

Lemma accuracy_before_is_self_comparison_witness :
  ∃ s' r,
    Stub.entry (Stub.success Stub.attacked) (Stub.args 50) Stub.start
      = (Ok (), s') ∧
    saved_json (trace s') = [r] ∧
    r !! "accuracy_before" = Some (FFloat (Finite 1)).
Proof.
  destruct (accuracy_before_is_self_comparison
              (Stub.builder (Stub.success Stub.attacked))
              Stub.run Stub.model Stub.tokenizer Stub.latency
              (Stub.args 50) Stub.start
              (Stub.success Stub.attacked) (Stub.success Stub.attacked)
              Stub.clock Stub.attacked)
    as (s' & r & ls & ps & ab & Hmain & _ & _ & Hjson & _ & Hr & Hab).
  - stub_run.
  - stub_succeeded.
  - stub_well_formed.
  - exists s', r. split; [exact Hmain|]. split; [exact Hjson|].
    rewrite Hr, Hab. reflexivity.
Defined.

Lemma latency_measured_twice_on_same_batch_witness :
  ∃ s',
    Stub.entry (Stub.success Stub.attacked) (Stub.args 50) Stub.start
      = (Ok (), s') ∧
    latency_calls (trace s') =
      [ (1, [VStr "a fine film"; VStr "a dull film";
             VStr "a fine film, again"], 2);
        (1, [VStr "a fine film"; VStr "a dull film";
             VStr "a fine film, again"], 2) ].
Proof.
  destruct (latency_measured_twice_on_same_batch
              (Stub.builder (Stub.success Stub.attacked))
              Stub.run Stub.model Stub.tokenizer Stub.latency
              (Stub.args 50) Stub.start
              (Stub.success Stub.attacked) (Stub.success Stub.attacked)
              Stub.clock Stub.attacked)
    as (s' & r & ts & Hmain & _ & Hlen & Htexts & Hcalls & _).
  - stub_run.
  - stub_succeeded.
  - stub_well_formed.
  - exists s'. split; [exact Hmain|].
    destruct ts as [|t0 [|t1 [|t2 [|? ?]]]]; try discriminate Hlen.
    destruct (Htexts 0 _ eq_refl) as [_ H0].
    destruct (Htexts 1 _ eq_refl) as [_ H1].
    destruct (Htexts 2 _ eq_refl) as [_ H2].
    vm_compute in H0, H1, H2.
    injection H0 as ->. injection H1 as ->. injection H2 as ->.
    exact Hcalls.
Defined.

Lemma persisted_record_has_ten_fields_witness :
  ∃ s' r,
    Stub.entry (Stub.success Stub.attacked) (Stub.args 50) Stub.start
      = (Ok (), s') ∧
    saved_json (trace s') = [r] ∧
    saved_csv (trace s') = [[r]] ∧
    dom r = record_keys ∧
    r !! "model" = Some (FStr "meta-llama/Llama-2-7b") ∧
    r !! "quantization" = Some (FStr "GPTQ") ∧
    r !! "attack" = Some (FStr "prompt_injection").
Proof.
  destruct (persisted_record_has_ten_fields
              (Stub.builder (Stub.success Stub.attacked))
              Stub.run Stub.model Stub.tokenizer Stub.latency
              (Stub.args 50) Stub.start
              (Stub.success Stub.attacked) (Stub.success Stub.attacked)
              Stub.clock Stub.attacked)
    as (s' & r & Hmain & Hjson & Hcsv & Hdom & _ & Hm & Hq & Ha).
  - stub_run.
  - stub_succeeded.
  - stub_well_formed.
  - exists s', r. repeat split; assumption.
Defined.

Lemma derived_fields_are_rounded_witness :
  ∃ s' r,
    Stub.entry (Stub.success Stub.attacked) (Stub.args 50) Stub.start
      = (Ok (), s') ∧
    saved_json (trace s') = [r] ∧
    float_of r "accuracy_before" = Some 1%Q ∧
    float_of r "accuracy_after"
      = Some (6004799503160661 # 9007199254740992)%Q ∧
    float_of r "accuracy_drop"
      = Some (5944751508129055 # 18014398509481984)%Q ∧
    float_of r "latency_before_ms"
      = Some (6949617174986097 # 562949953421312)%Q ∧
    float_of r "latency_after_ms"
      = Some (7037437367719821 # 562949953421312)%Q ∧
    float_of r "latency_increase_ms"
      = Some (5764607523034235 # 36028797018963968)%Q.
Proof.
  destruct (derived_fields_are_rounded
              (Stub.builder (Stub.success Stub.attacked))
              Stub.run Stub.model Stub.tokenizer Stub.latency
              (Stub.args 50) Stub.start
              (Stub.success Stub.attacked) (Stub.success Stub.attacked)
              Stub.clock Stub.attacked)
    as (s' & r & ls & ps & ts & ab & aa & asr & lb & la & Hmain & Hjson
        & Hls & Hps & Hts & Hab & Haa & _ & Hlb & Hla & Hrb & Hra & _
        & Hrlb & Hrla & Hdrop & Hinc & _).
  - stub_run.
  - stub_succeeded.
  - stub_well_formed.
  - exists s', r. split; [exact Hmain|]. split; [exact Hjson|].
    vm_compute in Hls, Hps, Hts.
    injection Hls as <-. injection Hps as <-. injection Hts as <-.
    unfold float_of. rewrite Hrb, Hra, Hdrop, Hrlb, Hrla, Hinc.
    vm_compute in Hab, Haa, Hlb, Hla.
    injection Hab as <-. injection Haa as <-. subst lb la.
    repeat split; by vm_compute.
Defined.

Lemma accuracy_complements_asr_witness :
  ∃ qa qf : Qc,
    calculate_accuracy [VInt 0; VInt 0; VInt 0] [VInt 0; VInt 1; VInt 1]
      = Ok (Finite qa) ∧
    calculate_asr [VInt 0; VInt 0; VInt 0] [VInt 0; VInt 1; VInt 1]
      = Ok (Finite qf) ∧
    (qa == 6004799503160661 # 18014398509481984)%Q ∧
    (qf == 6004799503160661 # 9007199254740992)%Q ∧
    ((1 - qf) - (1 # 2 ^ 52) <= qa)%Q ∧
    (qa <= (1 - qf) + (1 # 2 ^ 52))%Q.
Proof.
  destruct (accuracy_complements_asr
              [VInt 0; VInt 0; VInt 0] [VInt 0; VInt 1; VInt 1])
    as (a & f & qa & qf & Ha & Hf & -> & -> & _ & _ & _ & _ & _ & Hne).
  - reflexivity.
  - destruct Hne as (Hqa & Hqf & _ & _ & _ & Hlo & Hhi); [discriminate|].
    exists qa, qf. split; [exact Ha|]. split; [exact Hf|].
    vm_compute in Hqa, Hqf.
    injection Hqa as Hqa. injection Hqf as Hqf.
    split; [by rewrite Hqa|]. split; [by rewrite Hqf|].
    split; [exact Hlo|exact Hhi].
Defined.

Lemma noop_attack_changes_nothing_witness :
  ∃ s' r,
    Stub.entry (Stub.success Stub.untouched) (Stub.args 50) Stub.start
      = (Ok (), s') ∧
    saved_json (trace s') = [r] ∧
    r !! "attack_success_rate" = Some (FFloat (Finite 0)) ∧
    r !! "accuracy_drop" = Some (FFloat (Finite 0)).
Proof.
  destruct (noop_attack_changes_nothing
              (Stub.builder (Stub.success Stub.untouched))
              Stub.run Stub.model Stub.tokenizer Stub.latency
              (Stub.args 50) Stub.start
              (Stub.success Stub.untouched) (Stub.success Stub.untouched)
              Stub.clock Stub.untouched)
    as (s' & r & Hmain & Hjson & Hasr & Hdrop).
  - stub_run.
  - stub_succeeded.
  - stub_well_formed.
  - stub_unperturbed.
  - exists s', r. repeat split; assumption.
Defined.


Lemma label_lists_are_aligned_witness :
  (∃ ls ps,
     original_labels Stub.attacked = Ok ls ∧
     perturbed_labels Stub.attacked = Ok ps ∧
     length ls = 3 ∧ length ps = 3) ∧
  (Stub.entry (Stub.success Stub.attacked) (Stub.args 50) Stub.start).1
    ≠ Raise MetricError.
Proof.
  destruct (label_lists_are_aligned
              (Stub.builder (Stub.success Stub.attacked))
              Stub.run Stub.model Stub.tokenizer Stub.latency
              (Stub.args 50) Stub.start Stub.attacked)
    as [Hlists Hno].
  split; [|exact Hno].
  destruct Hlists as (ls & ps & Hls & Hps & Hlen_ls & Hlen_ps & _).
  - stub_well_formed.
  - exists ls, ps. repeat split; assumption.
Defined.

(** ** Worked runs *)

(** The labels [0,1,1,0] against [0,1,0,0]: accuracy 0.75, success rate
    0.25, an accuracy drop of 0.25, and the reference against itself
    scores 1.0. *)
Example metrics_on_four_labels :
  let R := [VInt 0; VInt 1; VInt 1; VInt 0] in
  let P := [VInt 0; VInt 1; VInt 0; VInt 0] in
  calculate_accuracy R R = Ok (Finite 1) ∧
  calculate_accuracy R P = Ok (Finite (Q2Qc (3 # 4))) ∧
  calculate_asr R P = Ok (Finite (Q2Qc (1 # 4))) ∧
  round2 (fsub (Finite 1) (Finite (Q2Qc (3 # 4)))) = Finite (Q2Qc (1 # 4)).
Proof. cbv zeta. repeat split; by vm_compute. Qed.

(** Differences and roundings of floats, as Python computes them:
    [round(12.353 - 0.008, 2)] is 12.35, [round(1.0 - 39/40, 2)] is 0.03,
    [round(1e16 - 0.3, 2)] is 1e16, [round(0.125, 2)] is 0.12,
    [round(2.675, 2)] is 2.67 and [round(-0.004, 2)] is -0.0. *)
Example differences_and_roundings :
  round2 (fsub (round_to_double (12353 # 1000)) (round_to_double (8 # 1000)))
    = round_to_double (1235 # 100) ∧
  round2 (fsub (Finite 1) (true_divide 39 40)) = round_to_double (3 # 100) ∧
  round2 (fsub (round_to_double (inject_Z (10 ^ 16))) (round_to_double (3 # 10)))
    = round_to_double (inject_Z (10 ^ 16)) ∧
  round2 (round_to_double (125 # 1000)) = round_to_double (12 # 100) ∧
  round2 (round_to_double (2675 # 1000)) = round_to_double (267 # 100) ∧
  round2 (round_to_double (- (4 # 1000))) = NegZero.
Proof. repeat split; by vm_compute. Qed.

(** [round(a - b, 2)] on other objects than two floats, as Python computes
    it: [round(5 - 3, 2)] is the int 2, [round(5 - 0.3, 2)] is 4.7,
    [round(0.3 - 5, 2)] is -4.7, [(2**53 + 1) - 0.0] is 9007199254740992.0,
    [-0.0 - 0] is -0.0, [(2**1024 - 2**970 - 1) - 0.5] is the largest
    double, while [2**1024 - 0.5] and [(2**1024 - 2**970) - 0.5] are
    OverflowErrors and [None - 1.0], [1.0 - None], ['a' - 'b'] and
    [2**1024 - None] are TypeErrors. *)
Example differences_of_other_objects :
  py_sub (FInt 5) (FInt 3) ≫= py_round2 = Ok (FInt 2) ∧
  py_sub (FInt 5) (FFloat (round_to_double (3 # 10))) ≫= py_round2
    = Ok (FFloat (round_to_double (47 # 10))) ∧
  py_sub (FFloat (round_to_double (3 # 10))) (FInt 5) ≫= py_round2
    = Ok (FFloat (round_to_double (- (47 # 10)))) ∧
  py_sub (FInt (2 ^ 53 + 1)) (FFloat (Finite 0))
    = Ok (FFloat (round_to_double (inject_Z (2 ^ 53)))) ∧
  py_sub (FFloat NegZero) (FInt 0) ≫= py_round2 = Ok (FFloat NegZero) ∧
  py_sub (FInt (2 ^ 1024 - 2 ^ 970 - 1)) (FFloat (round_to_double (1 # 2)))
    = Ok (FFloat (round_to_double (inject_Z (2 ^ 1024 - 2 ^ 971)))) ∧
  py_sub (FInt (2 ^ 1024)) (FFloat (round_to_double (1 # 2)))
    = Raise OverflowError ∧
  py_sub (FInt (2 ^ 1024 - 2 ^ 970)) (FFloat (round_to_double (1 # 2)))
    = Raise OverflowError ∧
  py_sub FNone (FFloat (Finite 1)) = Raise TypeError ∧
  py_sub (FFloat (Finite 1)) FNone = Raise TypeError ∧
  py_sub (FStr "a") (FStr "b") = Raise TypeError ∧
  py_sub (FInt (2 ^ 1024)) FNone = Raise TypeError.
Proof. repeat split; by vm_compute. Qed.

(** The record of a run over [Stub.attacked]: one label of three flipped,
    and clock readings of 12.345 and 12.501 ms. The floats are given by
    their exact values: 1.0, 0.6666666666666666, 0.33, 0.3333333333333333,
    12.345, 12.501 and 0.16. *)
Example record_of_attacked_run :
  let out := Stub.entry (Stub.success Stub.attacked) (Stub.args 50) Stub.start in
  out.1 = Ok () ∧
  (λ r, float_of r <$>
          [ "accuracy_before"; "accuracy_after"; "accuracy_drop";
            "attack_success_rate"; "latency_before_ms"; "latency_after_ms";
            "latency_increase_ms" ])
    <$> saved_json (trace out.2)
  = [ [ Some 1%Q;
        Some (6004799503160661 # 9007199254740992)%Q;
        Some (5944751508129055 # 18014398509481984)%Q;
        Some (6004799503160661 # 18014398509481984)%Q;
        Some (6949617174986097 # 562949953421312)%Q;
        Some (7037437367719821 # 562949953421312)%Q;
        Some (5764607523034235 # 36028797018963968)%Q ] ].
Proof. cbv zeta. split; by vm_compute. Qed.

(** A result without a status, or a successful one without data, ends in a
    KeyError; an example without a label ends the run before any metric
    is computed. *)
Example runs_that_raise :
  (Stub.entry ∅ (Stub.args 50) Stub.start).1 = Raise (KeyError "status") ∧
  (Stub.entry {[ "status" := RStr "success" ]} (Stub.args 50) Stub.start).1
    = Raise (KeyError "adversarial_data") ∧
  (let out := Stub.entry (Stub.success [{[ "text" := VStr "no label" ]}])
                        (Stub.args 50) Stub.start in
   out.1 = Raise (KeyError "label") ∧ accuracy_calls (trace out.2) = []).
Proof. cbv zeta. repeat split; by vm_compute. Qed.

(** Runs over [Stub.attacked] with collaborators that keep to no interface.
    A probe whose second reading is [None] ends the run in a TypeError
    after both measurements, and so does an accuracy routine that returns
    [None]; in neither run is anything saved. A metric routine that raises
    ends the run at its first call. A probe that reads the ints 5 and 3
    lets the run complete, with the int -2 as the latency increase. *)
Example runs_on_other_objects :
  (let out := Stub.entry_with specified_accuracy specified_asr
                (Stub.success Stub.attacked) (Stub.args 50)
                (Stub.start_with [FFloat (Finite 1); FNone]) in
   out.1 = Raise TypeError ∧
   length (latency_calls (trace out.2)) = 2 ∧
   saved_json (trace out.2) = [] ∧ saved_csv (trace out.2) = []) ∧
  (let out := Stub.entry_with (λ _ _, Ok FNone) specified_asr
                (Stub.success Stub.attacked) (Stub.args 50)
                (Stub.start_with [FFloat (Finite 1); FFloat (Finite 1)]) in
   out.1 = Raise TypeError ∧
   length (latency_calls (trace out.2)) = 2 ∧
   saved_json (trace out.2) = [] ∧ saved_csv (trace out.2) = []) ∧
  (let out := Stub.entry_with (λ _ _, Raise MetricError) specified_asr
                (Stub.success Stub.attacked) (Stub.args 50)
                (Stub.start_with []) in
   out.1 = Raise MetricError ∧
   length (accuracy_calls (trace out.2)) = 1 ∧
   asr_calls (trace out.2) = [] ∧ latency_calls (trace out.2) = []) ∧
  (let out := Stub.entry_with specified_accuracy specified_asr
                (Stub.success Stub.attacked) (Stub.args 50)
                (Stub.start_with [FInt 5; FInt 3]) in
   out.1 = Ok () ∧
   (λ r, r !! "latency_increase_ms") <$> saved_json (trace out.2)
     = [Some (FInt (-2))]).
Proof. cbv zeta. repeat split; by vm_compute. Qed.

(** * Every way a run can go *)

(** Why the record literal can fail. *)
Lemma float_of_int_raise (z : Z) (x : exn) :
  float_of_int z = Raise x → x = OverflowError.
Proof.
  unfold float_of_int. destruct (round_to_double _); by intros [= <-].
Qed.

Lemma py_sub_raise (a b : field) (x : exn) :
  py_sub a b = Raise x → x ∈ [TypeError; OverflowError].
Proof.
  destruct a as [| |m|u], b as [| |n|v]; cbn [py_sub];
    try (intros [= <-]; set_solver).
  - destruct (float_of_int m) as [u|y] eqn:Hm; [done|].
    intros [= <-]. apply float_of_int_raise in Hm as ->. set_solver.
  - destruct (float_of_int n) as [v|y] eqn:Hn; [done|].
    intros [= <-]. apply float_of_int_raise in Hn as ->. set_solver.
Qed.

Lemma py_round2_raise (a : field) (x : exn) :
  py_round2 a = Raise x → x = TypeError.
Proof. destruct a; by intros [= <-]. Qed.

Lemma rounded_difference_raise (a b : field) (x : exn) :
  py_sub a b ≫= py_round2 = Raise x → x ∈ [TypeError; OverflowError].
Proof.
  destruct (py_sub a b) as [d|y] eqn:Hd; cbn.
  - intros ->%py_round2_raise. set_solver.
  - intros [= <-]. by eapply py_sub_raise.
Qed.

Lemma final_results_raise args (ab aa asr lb la : field) (x : exn) :
  final_results_of args ab aa asr lb la = Raise x →
  x ∈ [TypeError; OverflowError].
Proof.
  unfold final_results_of.
  destruct (py_sub ab aa ≫= py_round2) as [drop|y] eqn:Hdrop; cbn.
  2:{ intros [= <-]. by eapply rounded_difference_raise. }
  destruct (py_sub la lb ≫= py_round2) as [increase|y] eqn:Hinc; cbn; [done|].
  intros [= <-]. by eapply rounded_difference_raise.
Qed.

Ltac shape_trace :=
  unfold opening; rewrite <- ?app_assoc; reflexivity.

Section Shapes.

Context {Handle Experiment World : Type}.
Variable ExperimentBuilder :
  string → string → string → option string → World → Experiment * World.
Variable run_experiment :
  Experiment → World → gmap string rvalue * Experiment * World.
Variable experiment_model : Experiment → Handle.
Variable experiment_tokenizer : Experiment → Handle.
Variable AccuracyEvaluator : list value → list value → res field.
Variable AttackSuccessRate : list value → list value → res field.
Variable LatencyEvaluator :
  Handle → list value → Handle → World → field * World.

#[local] Abbreviation main' :=
  (main ExperimentBuilder run_experiment experiment_model
        experiment_tokenizer AccuracyEvaluator AttackSuccessRate
        LatencyEvaluator).

(** Every run has one of the shapes of [run_shape], whatever the metric
    routines and the latency probe hand back. *)
Lemma main_run_shape args (s : state Handle World) :
  ∃ new,
    trace (main' args s).2 = trace s ++ opening args ++ new ∧
    run_shape AccuracyEvaluator AttackSuccessRate (main' args s).1 new.
Proof.
  destruct (main' args s) as [o s'] eqn:Hmain. cbn [fst snd].
  revert Hmain. step_main.
  destruct (ExperimentBuilder _ _ _ _ _) as [e0 w1]. cbn [world trace].
  destruct (run_experiment e0 w1) as [[results e] w]. cbn [world trace].
  unfold getitem at 1. destruct (results !! "status") as [status|].
  2:{ intros [= <- <-]. exists []. cbn [trace]. split; [shape_trace|]. apply shape_raised_early. set_solver. }
  destruct (decide (status ≠ RStr "success")).
  { intros [= <- <-]. eexists. cbn [trace]. split; [shape_trace|].
    apply shape_failed. }
  unfold getitem at 1.
  destruct (results !! "adversarial_data") as [v|].
  2:{ intros [= <- <-]. exists []. cbn [trace]. split; [shape_trace|]. apply shape_raised_early. set_solver. }
  destruct (examples_of v) as [data|x] eqn:Hv.
  2:{ apply examples_of_raise in Hv as ->.
      intros [= <- <-]. exists []. cbn [trace]. split; [shape_trace|]. apply shape_raised_early. set_solver. }
  destruct (original_labels data) as [ls|x] eqn:Hls.
  2:{ apply original_labels_raise in Hls as ->.
      intros [= <- <-]. exists []. cbn [trace]. split; [shape_trace|]. apply shape_raised_early. set_solver. }
  destruct (perturbed_labels data) as [ps|x] eqn:Hps.
  2:{ apply perturbed_labels_raise in Hps as ->.
      intros [= <- <-]. exists []. cbn [trace]. split; [shape_trace|]. apply shape_raised_early. set_solver. }
  cbn [world trace].
  destruct (AccuracyEvaluator ls ls) as [ab|x] eqn:Hab.
  2:{ intros [= <- <-]. eexists. cbn [trace]. split; [shape_trace|].
      by apply shape_accuracy_before_raised. }
  cbn [world trace].
  destruct (AccuracyEvaluator ls ps) as [aa|x] eqn:Haa.
  2:{ intros [= <- <-]. eexists. cbn [trace]. split; [shape_trace|].
      by apply shape_accuracy_after_raised. }
  cbn [world trace].
  destruct (AttackSuccessRate ls ps) as [asr|x] eqn:Hasr.
  2:{ intros [= <- <-]. eexists. cbn [trace]. split; [shape_trace|].
      by apply shape_asr_raised. }
  cbn [world trace].
  destruct (texts_of data) as [ts|x] eqn:Hts.
  2:{ apply texts_of_raise in Hts as ->.
      intros [= <- <-]. eexists. cbn [trace]. split; [shape_trace|].
      apply shape_no_text. }
  cbn [world trace].
  destruct (LatencyEvaluator _ _ _ w) as [lb w2]. cbn [world trace].
  destruct (LatencyEvaluator _ _ _ w2) as [la w3]. cbn [world trace].
  destruct (final_results_of args ab aa asr lb la) as [r|x] eqn:Hr.
  2:{ intros [= <- <-]. eexists. cbn [trace]. split; [shape_trace|].
      apply shape_not_numbers. by eapply final_results_raise. }
  cbn [world trace].
  intros [= <- <-]. eexists. cbn [trace]. split; [shape_trace|].
  apply shape_completed.
Qed.


(** X8. The exceptions that a run of [main] can end in, with an experiment
    builder, a latency probe and a storage layer that return, and metric
    and latency values that are floats, ints, strings or [None]: a
    KeyError for one of the four keys it reads (["status"],
    ["adversarial_data"], ["label"], ["text"]); the TypeError of an
    [adversarial_data] that cannot be traversed as a list of dicts, or of
    [round(a - b, 2)] on a metric or latency value that is not a number;
    the OverflowError of an int too large for a float, in the difference
    of an int and a float;
    and whatever one of the three metric calls raises. *)
Theorem exceptions_of_main args (s s' : state Handle World) x :
  main' args s = (Raise x, s') →
  x ∈ [ KeyError "status"; KeyError "adversarial_data"; KeyError "label";
        KeyError "text"; TypeError; OverflowError ]
  ∨ ∃ ls ps,
      AccuracyEvaluator ls ls = Raise x ∨ AccuracyEvaluator ls ps = Raise x
      ∨ AttackSuccessRate ls ps = Raise x.
Proof.
  intros Hmain. destruct (main_run_shape args s) as (new & _ & Hshape).
  rewrite Hmain in Hshape. cbn [fst] in Hshape.
  inversion Hshape as [x' Hx| |x' ls Hab|x' ls ps Haa|x' ls ps Hasr|ls ps
                       |x' ls ps ts m t Hx|]; subst.
  - left. set_unfold. intuition.
  - right. exists ls, ls. by left.
  - right. exists ls, ps. right. by left.
  - right. exists ls, ps. right. by right.
  - left. do 3 apply list_elem_of_further. apply list_elem_of_here.
  - left. set_unfold. intuition.
Qed.


End Shapes.

Section Paths.

Context {Handle Experiment World : Type}.
Variable ExperimentBuilder :
  string → string → string → option string → World → Experiment * World.
Variable run_experiment :
  Experiment → World → gmap string rvalue * Experiment * World.
Variable experiment_model : Experiment → Handle.
Variable experiment_tokenizer : Experiment → Handle.
Variable measure_latency :
  Handle → list value → Handle → World → double * World.

#[local] Abbreviation main' :=
  (main ExperimentBuilder run_experiment experiment_model
        experiment_tokenizer specified_accuracy specified_asr
        (float_probe measure_latency)).
#[local] Abbreviation run_of' := (run_of ExperimentBuilder run_experiment).

Lemma main_no_status_run args (s : state Handle World) results e w :
  run_of' args (world s) = (results, e, w) →
  results !! "status" = None →
  main' args s = (Raise (KeyError "status"), mkState w (trace s ++ opening args)).
Proof.
  intros Hrun Hstatus. unfold run_of in Hrun. step_main.
  destruct (ExperimentBuilder _ _ _ _ _) as [e0 w1]. cbn [world trace].
  rewrite Hrun. unfold getitem. rewrite Hstatus. cbn [world trace].
  by rewrite <- !app_assoc.
Qed.

Lemma main_no_data_run args (s : state Handle World) results e w :
  run_of' args (world s) = (results, e, w) →
  results !! "status" = Some (RStr "success") →
  results !! "adversarial_data" = None →
  main' args s =
    (Raise (KeyError "adversarial_data"), mkState w (trace s ++ opening args)).
Proof.
  intros Hrun Hstatus Hdata. unfold run_of in Hrun. step_main.
  destruct (ExperimentBuilder _ _ _ _ _) as [e0 w1]. cbn [world trace].
  rewrite Hrun. unfold getitem. rewrite Hstatus.
  rewrite decide_False by naive_solver. rewrite Hdata. cbn [world trace].
  by rewrite <- !app_assoc.
Qed.

Lemma main_not_iterable_run args (s : state Handle World) results e w v x :
  run_of' args (world s) = (results, e, w) →
  results !! "status" = Some (RStr "success") →
  results !! "adversarial_data" = Some v →
  examples_of v = Raise x →
  main' args s = (Raise TypeError, mkState w (trace s ++ opening args)).
Proof.
  intros Hrun Hstatus Hdata Hv. unfold run_of in Hrun. step_main.
  destruct (ExperimentBuilder _ _ _ _ _) as [e0 w1]. cbn [world trace].
  rewrite Hrun. unfold getitem. rewrite Hstatus.
  rewrite decide_False by naive_solver. rewrite Hdata, Hv. cbn [world trace].
  apply examples_of_raise in Hv as ->. by rewrite <- !app_assoc.
Qed.

Lemma main_no_label_run args (s : state Handle World) results e w v data x :
  run_of' args (world s) = (results, e, w) →
  results !! "status" = Some (RStr "success") →
  results !! "adversarial_data" = Some v →
  examples_of v = Ok data →
  original_labels data = Raise x →
  main' args s = (Raise (KeyError "label"), mkState w (trace s ++ opening args)).
Proof.
  intros Hrun Hstatus Hdata Hv Hls. unfold run_of in Hrun. step_main.
  destruct (ExperimentBuilder _ _ _ _ _) as [e0 w1]. cbn [world trace].
  rewrite Hrun. unfold getitem. rewrite Hstatus.
  rewrite decide_False by naive_solver. rewrite Hdata, Hv, Hls.
  cbn [world trace].
  apply original_labels_raise in Hls as ->. by rewrite <- !app_assoc.
Qed.

(** The perturbed labels are built whenever the original ones are. *)
Lemma perturbed_labels_follow (data : list example) (ls : list value) :
  original_labels data = Ok ls → ∃ ps, perturbed_labels data = Ok ps.
Proof.
  intros Hls%comprehension_ok_inv. apply comprehension_ok.
  eapply Forall_impl; [exact Hls|]. intros d [l Hl].
  unfold label_of in Hl. unfold perturbed_label_of. rewrite Hl. eauto.
Qed.

Lemma main_no_text_run args (s : state Handle World) results e w v data
    ls ps x :
  run_of' args (world s) = (results, e, w) →
  results !! "status" = Some (RStr "success") →
  results !! "adversarial_data" = Some v →
  examples_of v = Ok data →
  original_labels data = Ok ls →
  perturbed_labels data = Ok ps →
  texts_of data = Raise x →
  main' args s =
    (Raise (KeyError "text"),
     mkState w (trace s ++ opening args ++
                [EvAccuracy ls ls; EvAccuracy ls ps; EvAsr ls ps])).
Proof.
  intros Hrun Hstatus Hdata Hv Hls Hps Hts. unfold run_of in Hrun.
  destruct (labels_length data ls ps Hls Hps) as [Hlen_ls Hlen_ps].
  destruct (calculate_accuracy_ok ls ls) as [ab Hab]; [done|].
  destruct (calculate_accuracy_ok ls ps) as [aa Haa]; [congruence|].
  destruct (calculate_asr_ok ls ps) as [asr Hasr]; [congruence|].
  step_main.
  destruct (ExperimentBuilder _ _ _ _ _) as [e0 w1]. cbn [world trace].
  rewrite Hrun. unfold getitem. rewrite Hstatus.
  rewrite decide_False by naive_solver. rewrite Hdata, Hv, Hls, Hps.
  cbn [world trace]. step_specified. rewrite Hab, Haa, Hasr, Hts.
  cbn [float_result world trace].
  apply texts_of_raise in Hts as ->. by rewrite <- !app_assoc.
Qed.

Lemma main_complete_run args (s : state Handle World) results e w v data
    ls ps ts :
  run_of' args (world s) = (results, e, w) →
  results !! "status" = Some (RStr "success") →
  results !! "adversarial_data" = Some v →
  examples_of v = Ok data →
  original_labels data = Ok ls →
  perturbed_labels data = Ok ps →
  texts_of data = Ok ts →
  ∃ ab aa asr r,
    calculate_accuracy ls ls = Ok ab ∧
    calculate_accuracy ls ps = Ok aa ∧
    calculate_asr ls ps = Ok asr ∧
    let m := experiment_model e in
    let t := experiment_tokenizer e in
    let before := measure_latency m ts t w in
    let after := measure_latency m ts t before.2 in
    final_results_of args (FFloat ab) (FFloat aa) (FFloat asr)
                     (FFloat before.1) (FFloat after.1) = Ok r ∧
    main' args s =
      (Ok (), mkState after.2
         (trace s ++ opening args ++
          [ EvAccuracy ls ls; EvAccuracy ls ps; EvAsr ls ps;
            EvLatency m ts t; EvLatency m ts t;
            EvLogInfo (MsgResults r); EvSaveJson r; EvSaveCsv [r];
            EvLogInfo (MsgText "Experiment completed successfully!") ])).
Proof.
  intros Hrun Hstatus Hdata Hv Hls Hps Hts. unfold run_of in Hrun.
  destruct (labels_length data ls ps Hls Hps) as [Hlen_ls Hlen_ps].
  destruct (calculate_accuracy_ok ls ls) as [ab Hab]; [done|].
  destruct (calculate_accuracy_ok ls ps) as [aa Haa]; [congruence|].
  destruct (calculate_asr_ok ls ps) as [asr Hasr]; [congruence|].
  exists ab, aa, asr. eexists. do 3 (split; [done|]). cbv zeta.
  split; [reflexivity|].
  step_main.
  destruct (ExperimentBuilder _ _ _ _ _) as [e0 w1]. cbn [world trace].
  rewrite Hrun. unfold getitem. rewrite Hstatus.
  rewrite decide_False by naive_solver. rewrite Hdata, Hv, Hls, Hps.
  cbn [world trace]. step_specified. rewrite Hab, Haa, Hasr, Hts.
  cbn [float_result world trace fst snd]. step_record. cbn [world trace].
  by rewrite <- !app_assoc.
Qed.

Lemma original_labels_missing (data : list example) (d : example) :
  d ∈ data → d !! "label" = None → original_labels data = Raise (KeyError "label").
Proof.
  intros Hin Hnone. destruct (original_labels data) as [ls|x] eqn:Hls.
  - apply comprehension_ok_inv in Hls.
    rewrite Forall_forall in Hls. destruct (Hls d Hin) as [l Hl].
    apply getitem_ok in Hl. congruence.
  - by apply original_labels_raise in Hls as ->.
Qed.

Lemma texts_of_missing (data : list example) (d : example) :
  d ∈ data → d !! "text" = None → texts_of data = Raise (KeyError "text").
Proof.
  intros Hin Hnone. destruct (texts_of data) as [ts|x] eqn:Hts.
  - apply comprehension_ok_inv in Hts.
    rewrite Forall_forall in Hts. destruct (Hts d Hin) as [l Hl].
    apply getitem_ok in Hl. congruence.
  - by apply texts_of_raise in Hts as ->.
Qed.

(** X1. Whatever the result and however the run ends, [main] sets up the
    logger, logs the opening line, builds one experiment from the model,
    dataset, attack and quantization of the command line, and runs it once;
    nothing later in the run builds or runs an experiment again. *)
Theorem every_run_builds_and_runs_once args (s : state Handle World) :
  ∃ new,
    trace (main' args s).2 = trace s ++ opening args ++ new ∧
    build_calls (trace (main' args s).2) =
      build_calls (trace s) ++
      [(arg_model args, arg_dataset args, arg_attack args,
        arg_quantization args)] ∧
    run_calls (trace (main' args s).2) = run_calls (trace s) ++ [()].
Proof.
  destruct (main_run_shape ExperimentBuilder run_experiment experiment_model
              experiment_tokenizer specified_accuracy specified_asr
              (float_probe measure_latency) args s)
    as (new & Htrace & Hshape).
  exists new. split; [done|]. rewrite Htrace.
  destruct Hshape; split; by read_more.
Qed.

(** X2. A result dict without a ["status"] key makes [main] raise
    [KeyError('status')] right after the experiment has run: no error line
    is logged, no metric or latency is computed, nothing is saved, and the
    world is left as [run_experiment] left it. *)
Theorem missing_status_raises_key_error args (s : state Handle World)
    results e w :
  run_of' args (world s) = (results, e, w) →
  results !! "status" = None →
  ∃ s',
    main' args s = (Raise (KeyError "status"), s') ∧
    world s' = w ∧
    trace s' = trace s ++ opening args ∧
    error_lines (trace s') = error_lines (trace s) ∧
    accuracy_calls (trace s') = accuracy_calls (trace s) ∧
    latency_calls (trace s') = latency_calls (trace s) ∧
    saved_json (trace s') = saved_json (trace s).
Proof.
  intros Hrun Hstatus. eexists. split; [exact (main_no_status_run _ _ _ _ _ Hrun Hstatus)|].
  cbn [world trace]. repeat split; by read_more.
Qed.

(** X3. A result that reports success but has no ["adversarial_data"] key
    makes [main] raise [KeyError('adversarial_data')] before any metric or
    latency call; nothing is saved. *)
Theorem missing_adversarial_data_raises_key_error args
    (s : state Handle World) results e w :
  run_of' args (world s) = (results, e, w) →
  results !! "status" = Some (RStr "success") →
  results !! "adversarial_data" = None →
  ∃ s',
    main' args s = (Raise (KeyError "adversarial_data"), s') ∧
    world s' = w ∧
    trace s' = trace s ++ opening args ∧
    accuracy_calls (trace s') = accuracy_calls (trace s) ∧
    latency_calls (trace s') = latency_calls (trace s) ∧
    saved_json (trace s') = saved_json (trace s).
Proof.
  intros Hrun Hstatus Hdata. eexists. split; [exact (main_no_data_run _ _ _ _ _ Hrun Hstatus Hdata)|].
  cbn [world trace]. repeat split; by read_more.
Qed.

(** X4. A result that reports success but whose ["adversarial_data"] is
    [None] or a non-empty string makes [main] raise a TypeError in the
    first comprehension, before any metric or latency call; nothing is
    saved. *)
Theorem non_list_adversarial_data_raises_type_error args
    (s : state Handle World) results e w v :
  run_of' args (world s) = (results, e, w) →
  results !! "status" = Some (RStr "success") →
  results !! "adversarial_data" = Some v →
  v = RNone ∨ (∃ c rest, v = RStr (String c rest)) →
  ∃ s',
    main' args s = (Raise TypeError, s') ∧
    world s' = w ∧
    trace s' = trace s ++ opening args ∧
    accuracy_calls (trace s') = accuracy_calls (trace s) ∧
    latency_calls (trace s') = latency_calls (trace s) ∧
    saved_json (trace s') = saved_json (trace s).
Proof.
  intros Hrun Hstatus Hdata Hv.
  assert (Hraise : examples_of v = Raise TypeError).
  { by destruct Hv as [->|(c & rest & ->)]. }
  eexists. split; [exact (main_not_iterable_run _ _ _ _ _ _ _ Hrun Hstatus Hdata Hraise)|].
  cbn [world trace]. repeat split; by read_more.
Qed.

(** X5. In a run that reports success, one example without a ["label"]
    key is enough for [main] to raise [KeyError('label')] before any
    metric is computed, whatever the other examples hold and also when the
    example has a perturbed label; nothing is saved. *)
Theorem missing_label_stops_before_metrics args (s : state Handle World)
    results e w data d :
  run_of' args (world s) = (results, e, w) →
  succeeded results data →
  d ∈ data →
  d !! "label" = None →
  ∃ s',
    main' args s = (Raise (KeyError "label"), s') ∧
    world s' = w ∧
    trace s' = trace s ++ opening args ∧
    accuracy_calls (trace s') = accuracy_calls (trace s) ∧
    asr_calls (trace s') = asr_calls (trace s) ∧
    latency_calls (trace s') = latency_calls (trace s) ∧
    saved_json (trace s') = saved_json (trace s).
Proof.
  intros Hrun [Hstatus Hdata] Hin Hnone.
  pose proof (original_labels_missing data d Hin Hnone) as Hls.
  eexists. split.
  { exact (main_no_label_run _ _ _ _ _ (RList data) data _ Hrun Hstatus Hdata
             eq_refl Hls). }
  cbn [world trace]. repeat split; by read_more.
Qed.

(** X6. In a run that reports success where every example has a label but
    one has no ["text"] key, [main] raises [KeyError('text')] only after
    both accuracies and the success rate have been computed; the latency
    probe is never called and nothing is saved. *)
Theorem missing_text_stops_after_metrics args (s : state Handle World)
    results e w data d :
  run_of' args (world s) = (results, e, w) →
  succeeded results data →
  Forall (λ d, is_Some (d !! "label")) data →
  d ∈ data →
  d !! "text" = None →
  ∃ s' ls ps,
    main' args s = (Raise (KeyError "text"), s') ∧
    original_labels data = Ok ls ∧
    perturbed_labels data = Ok ps ∧
    world s' = w ∧
    accuracy_calls (trace s') = accuracy_calls (trace s) ++ [(ls, ls); (ls, ps)] ∧
    asr_calls (trace s') = asr_calls (trace s) ++ [(ls, ps)] ∧
    latency_calls (trace s') = latency_calls (trace s) ∧
    saved_json (trace s') = saved_json (trace s) ∧
    saved_csv (trace s') = saved_csv (trace s).
Proof.
  intros Hrun [Hstatus Hdata] Hlabels Hin Hnone.
  destruct (labels_built data Hlabels) as (ls & ps & Hls & Hps).
  pose proof (texts_of_missing data d Hin Hnone) as Hts.
  eexists _, ls, ps. split.
  { exact (main_no_text_run _ _ _ _ _ (RList data) data ls ps _ Hrun Hstatus
             Hdata eq_refl Hls Hps Hts). }
  cbn [world trace]. repeat split; try done; by read_more.
Qed.

(** X10. [main] has no guard for an empty batch: when a run reports success
    with an empty [adversarial_data], both accuracies and the success rate
    are still asked for, on empty lists, the latency probe is still called
    twice, on an empty batch, and a record is still saved, with the same
    value under ["accuracy_before"] and ["accuracy_after"]. *)
Theorem empty_batch_is_still_evaluated args (s : state Handle World)
    results e w :
  run_of' args (world s) = (results, e, w) →
  succeeded results [] →
  ∃ s' r ab,
    main' args s = (Ok (), s') ∧
    accuracy_calls (trace s') = accuracy_calls (trace s) ++ [([], []); ([], [])] ∧
    asr_calls (trace s') = asr_calls (trace s) ++ [([], [])] ∧
    latency_calls (trace s') =
      latency_calls (trace s) ++
      [ (experiment_model e, [], experiment_tokenizer e);
        (experiment_model e, [], experiment_tokenizer e) ] ∧
    saved_json (trace s') = saved_json (trace s) ++ [r] ∧
    saved_csv (trace s') = saved_csv (trace s) ++ [[r]] ∧
    calculate_accuracy [] [] = Ok ab ∧
    r !! "accuracy_before" = Some (FFloat ab) ∧
    r !! "accuracy_after" = Some (FFloat ab).
Proof.
  intros Hrun [Hstatus Hdata].
  destruct (main_complete_run args s results e w (RList []) [] [] [] []
              Hrun Hstatus Hdata eq_refl eq_refl eq_refl eq_refl)
    as (ab & aa & asr & r & Hab & Haa & Hasr & Hr & Hmain).
  cbv zeta in Hr, Hmain. read_record Hr.
  rewrite Hab in Haa. injection Haa as <-.
  eexists _, _, ab. split; [exact Hmain|].
  cbn [trace]. repeat split; try done; by read_more.
Qed.

(** X11. The order of effects in a completed run: the two accuracies, the
    success rate, the two latency measurements, then the record is logged,
    saved as JSON, saved as CSV, and the completion line is logged last.
    The run leaves the world as the second latency measurement left it. *)
Theorem completed_run_event_order args (s : state Handle World)
    results e w data :
  run_of' args (world s) = (results, e, w) →
  succeeded results data →
  Forall well_formed data →
  ∃ s' ls ps ts r,
    main' args s = (Ok (), s') ∧
    original_labels data = Ok ls ∧
    perturbed_labels data = Ok ps ∧
    texts_of data = Ok ts ∧
    let m := experiment_model e in
    let t := experiment_tokenizer e in
    world s' = (measure_latency m ts t (measure_latency m ts t w).2).2 ∧
    trace s' = trace s ++
      [ EvSetupLogger;
        EvLogInfo (MsgText ("Running experiment: " +:+ arg_attack args
                            +:+ " on " +:+ arg_model args +:+ " with "
                            +:+ quantization_or_default (arg_quantization args)));
        EvBuild (arg_model args) (arg_dataset args) (arg_attack args)
                (arg_quantization args);
        EvRunExperiment;
        EvAccuracy ls ls; EvAccuracy ls ps; EvAsr ls ps;
        EvLatency m ts t; EvLatency m ts t;
        EvLogInfo (MsgResults r); EvSaveJson r; EvSaveCsv [r];
        EvLogInfo (MsgText "Experiment completed successfully!") ].
Proof.
  intros Hrun Hok Hwf.
  destruct (main_success _ _ experiment_model experiment_tokenizer
              measure_latency _ _ _ _ _ _ Hrun Hok Hwf)
    as (ls & ps & ts & ab & aa & asr & r & Hls & Hps & Hts & _ & _ & _ & _
        & Hmain).
  cbv zeta in Hmain.
  eexists _, ls, ps, ts, _. split; [exact Hmain|].
  repeat (split; [done|]). cbv zeta. cbn [world trace]. split; done.
Qed.

End Paths.

(** X12. The two label comprehensions stand or fall together: each is
    built exactly when every example has a ["label"] key. The default of
    [d.get("perturbed_label", d["label"])] is evaluated before the lookup,
    so an example without a label raises [KeyError('label')] even when it
    has a perturbed label. *)
Theorem label_lists_built_together (data : list example) :
  ((∃ ls, original_labels data = Ok ls) ↔
     Forall (λ d, is_Some (d !! "label")) data) ∧
  ((∃ ps, perturbed_labels data = Ok ps) ↔
     Forall (λ d, is_Some (d !! "label")) data) ∧
  (∀ d, d !! "label" = None →
        perturbed_label_of d = Raise (KeyError "label")).
Proof.
  split; [|split].
  - split.
    + intros [ls Hls%comprehension_ok_inv].
      eapply Forall_impl; [exact Hls|]. intros d [l Hl]. exists l.
      by apply getitem_ok.
    + intros Hlabels. destruct (labels_built data Hlabels) as (ls & _ & Hls & _).
      eauto.
  - split.
    + intros [ps Hps%comprehension_ok_inv].
      eapply Forall_impl; [exact Hps|]. intros d [p Hp].
      unfold perturbed_label_of, getitem in Hp.
      destruct (d !! "label") as [l|]; [by exists l|done].
    + intros Hlabels. destruct (labels_built data Hlabels) as (_ & ps & _ & Hps).
      eauto.
  - intros d Hnone. unfold perturbed_label_of, getitem. by rewrite Hnone.
Qed.

(** ** More runs in the scripted environment *)

Lemma missing_status_raises_key_error_witness :
  ∃ s',
    Stub.entry ∅ (Stub.args 50) Stub.start = (Raise (KeyError "status"), s') ∧
    length (trace s') = 4.
Proof.
  destruct (missing_status_raises_key_error
              (Stub.builder ∅) Stub.run Stub.model Stub.tokenizer Stub.latency
              (Stub.args 50) Stub.start ∅ ∅ Stub.clock)
    as (s' & Hmain & _ & Htrace & _).
  - stub_run.
  - reflexivity.
  - exists s'. split; [exact Hmain|]. by rewrite Htrace.
Defined.

Lemma missing_adversarial_data_raises_key_error_witness :
  ∃ s',
    Stub.entry {[ "status" := RStr "success" ]} (Stub.args 50) Stub.start
      = (Raise (KeyError "adversarial_data"), s') ∧
    saved_json (trace s') = [].
Proof.
  destruct (missing_adversarial_data_raises_key_error
              (Stub.builder {[ "status" := RStr "success" ]})
              Stub.run Stub.model Stub.tokenizer Stub.latency
              (Stub.args 50) Stub.start
              {[ "status" := RStr "success" ]}
              {[ "status" := RStr "success" ]} Stub.clock)
    as (s' & Hmain & _ & _ & _ & _ & Hjson).
  - stub_run.
  - reflexivity.
  - reflexivity.
  - exists s'. split; [exact Hmain|]. exact Hjson.
Defined.

Lemma non_list_adversarial_data_raises_type_error_witness :
  ∃ s',
    Stub.entry (<["adversarial_data" := RNone]> (Stub.success []))
               (Stub.args 50) Stub.start
      = (Raise TypeError, s') ∧
    saved_json (trace s') = [].
Proof.
  destruct (non_list_adversarial_data_raises_type_error
              (Stub.builder (<["adversarial_data" := RNone]> (Stub.success [])))
              Stub.run Stub.model Stub.tokenizer Stub.latency
              (Stub.args 50) Stub.start
              (<["adversarial_data" := RNone]> (Stub.success []))
              (<["adversarial_data" := RNone]> (Stub.success []))
              Stub.clock RNone)
    as (s' & Hmain & _ & _ & _ & _ & Hjson).
  - stub_run.
  - reflexivity.
  - reflexivity.
  - by left.
  - exists s'. split; [exact Hmain|]. exact Hjson.
Defined.

Lemma missing_label_stops_before_metrics_witness :
  ∃ s',
    Stub.entry (Stub.success [ Stub.sample "a fine film" 1 None;
                               {[ "text" := VStr "unlabelled";
                                  "perturbed_label" := VInt 1 ]} ])
               (Stub.args 50) Stub.start
      = (Raise (KeyError "label"), s') ∧
    accuracy_calls (trace s') = [].
Proof.
  destruct (missing_label_stops_before_metrics
              (Stub.builder
                 (Stub.success [ Stub.sample "a fine film" 1 None;
                                 {[ "text" := VStr "unlabelled";
                                    "perturbed_label" := VInt 1 ]} ]))
              Stub.run Stub.model Stub.tokenizer Stub.latency
              (Stub.args 50) Stub.start
              (Stub.success [ Stub.sample "a fine film" 1 None;
                              {[ "text" := VStr "unlabelled";
                                 "perturbed_label" := VInt 1 ]} ])
              (Stub.success [ Stub.sample "a fine film" 1 None;
                              {[ "text" := VStr "unlabelled";
                                 "perturbed_label" := VInt 1 ]} ])
              Stub.clock
              [ Stub.sample "a fine film" 1 None;
                {[ "text" := VStr "unlabelled"; "perturbed_label" := VInt 1 ]} ]
              {[ "text" := VStr "unlabelled"; "perturbed_label" := VInt 1 ]})
    as (s' & Hmain & _ & _ & Hacc & _).
  - stub_run.
  - stub_succeeded.
  - apply list_elem_of_further, list_elem_of_here.
  - reflexivity.
  - exists s'. split; [exact Hmain|]. exact Hacc.
Defined.

Lemma missing_text_stops_after_metrics_witness :
  ∃ s',
    Stub.entry (Stub.success [ Stub.sample "a fine film" 1 None;
                               {[ "label" := VInt 0 ]} ])
               (Stub.args 50) Stub.start
      = (Raise (KeyError "text"), s') ∧
    length (accuracy_calls (trace s')) = 2 ∧
    latency_calls (trace s') = [].
Proof.
  destruct (missing_text_stops_after_metrics
              (Stub.builder
                 (Stub.success [ Stub.sample "a fine film" 1 None;
                                 {[ "label" := VInt 0 ]} ]))
              Stub.run Stub.model Stub.tokenizer Stub.latency
              (Stub.args 50) Stub.start
              (Stub.success [ Stub.sample "a fine film" 1 None;
                              {[ "label" := VInt 0 ]} ])
              (Stub.success [ Stub.sample "a fine film" 1 None;
                              {[ "label" := VInt 0 ]} ])
              Stub.clock
              [ Stub.sample "a fine film" 1 None; {[ "label" := VInt 0 ]} ]
              {[ "label" := VInt 0 ]})
    as (s' & ls & ps & Hmain & _ & _ & _ & Hacc & _ & Hlat & _).
  - stub_run.
  - stub_succeeded.
  - stub_well_formed.
  - apply list_elem_of_further, list_elem_of_here.
  - reflexivity.
  - exists s'. split; [exact Hmain|]. split; [by rewrite Hacc|exact Hlat].
Defined.


Lemma exceptions_of_main_witness :
  ∃ s',
    Stub.entry_with specified_accuracy specified_asr
      (Stub.success Stub.attacked) (Stub.args 50)
      (Stub.start_with [FInt (2 ^ 1024); FFloat (Finite 1)])
      = (Raise OverflowError, s') ∧
    length (latency_calls (trace s')) = 2 ∧
    (OverflowError
       ∈ [ KeyError "status"; KeyError "adversarial_data"; KeyError "label";
           KeyError "text"; TypeError; OverflowError ]
     ∨ ∃ ls ps,
         specified_accuracy ls ls = Raise OverflowError
         ∨ specified_accuracy ls ps = Raise OverflowError
         ∨ specified_asr ls ps = Raise OverflowError).
Proof.
  eexists. split; [reflexivity|]. split; [reflexivity|].
  apply (exceptions_of_main
           (Stub.builder (Stub.success Stub.attacked))
           Stub.run Stub.model Stub.tokenizer
           specified_accuracy specified_asr Stub.probe
           (Stub.args 50)
           (Stub.start_with [FInt (2 ^ 1024); FFloat (Finite 1)])
           (Stub.entry_with specified_accuracy specified_asr
              (Stub.success Stub.attacked) (Stub.args 50)
              (Stub.start_with [FInt (2 ^ 1024); FFloat (Finite 1)])).2).
  reflexivity.
Defined.

Lemma empty_batch_is_still_evaluated_witness :
  ∃ s' r,
    Stub.entry (Stub.success []) (Stub.args 50) Stub.start = (Ok (), s') ∧
    latency_calls (trace s') = [(1, [], 2); (1, [], 2)] ∧
    saved_json (trace s') = [r].
Proof.
  destruct (empty_batch_is_still_evaluated
              (Stub.builder (Stub.success []))
              Stub.run Stub.model Stub.tokenizer Stub.latency
              (Stub.args 50) Stub.start
              (Stub.success []) (Stub.success []) Stub.clock)
    as (s' & r & ab & Hmain & _ & _ & Hlat & Hjson & _).
  - stub_run.
  - stub_succeeded.
  - exists s', r. split; [exact Hmain|]. split; [exact Hlat|exact Hjson].
Defined.

Lemma completed_run_event_order_witness :
  ∃ s',
    Stub.entry (Stub.success Stub.attacked) (Stub.args 50) Stub.start
      = (Ok (), s') ∧
    length (trace s') = 13 ∧
    world s' = [].
Proof.
  destruct (completed_run_event_order
              (Stub.builder (Stub.success Stub.attacked))
              Stub.run Stub.model Stub.tokenizer Stub.latency
              (Stub.args 50) Stub.start
              (Stub.success Stub.attacked) (Stub.success Stub.attacked)
              Stub.clock Stub.attacked)
    as (s' & ls & ps & ts & r & Hmain & _ & _ & _ & Hworld & Htrace).
  - stub_run.
  - stub_succeeded.
  - stub_well_formed.
  - exists s'. split; [exact Hmain|]. split; [by rewrite Htrace|].
    rewrite Hworld. reflexivity.
Defined.
